(** * Environment resolution of robotics_containerization

    A shallow embedding of [src/generate_config.py], and of the helpers of
    [src/build.py] and [src/run.py] that consume its output, with the
    properties the specification states about them.

    Conventions of the embedding.
    - A Python [str] is a Rocq [string]; a character is a code point below
      256 (the Latin-1 range).  [str.strip], [str.lower] and
      [str.splitlines] are written out for that range exactly as CPython
      behaves on it.
    - A YAML document is a [value]: strings, integers, sequences and
      mappings.  The schema of [config/env.yaml] decides which kind the code
      expects where; a use of a value of another kind is reported as
      [TypeError] at the place of that use, and what Python does beyond
      that point is not modelled.
    - A Python [dict] whose order is observed (the resolved environment) is
      an insertion-ordered association list; a [dict] that is only looked up
      (the loaded configuration) is a [gmap].
    - The host (paths of the checkout, [platform.machine()], the
      filesystem, [pathlib]'s join) is a record the functions take as an
      argument.  Filesystem probes are logged, in order. *)

From Stdlib Require Import Ascii String ZArith.
From stdpp Require Import base option list strings gmap pretty.

Local Open Scope string_scope.

(** ** Python string methods *)

Module PyStr.

Definition code (c : ascii) : N := N_of_ascii c.

(** [str.isspace] on one character. *)
Definition is_space (c : ascii) : bool :=
  let n := code c in
  ((9 <=? n) && (n <=? 13) || (28 <=? n) && (n <=? 32)
   || (n =? 133) || (n =? 160))%N.

(** The characters [str.splitlines] breaks a line at. *)
Definition is_linebreak (c : ascii) : bool :=
  let n := code c in
  ((10 <=? n) && (n <=? 13) || (28 <=? n) && (n <=? 30) || (n =? 133))%N.

Definition lower_char (c : ascii) : ascii :=
  let n := code c in
  if ((65 <=? n) && (n <=? 90)
      || (192 <=? n) && (n <=? 222) && negb (n =? 215))%N
  then ascii_of_N (n + 32) else c.

Fixpoint lower (s : string) : string :=
  match s with
  | EmptyString => EmptyString
  | String c s' => String (lower_char c) (lower s')
  end.

Fixpoint lstrip (s : string) : string :=
  match s with
  | EmptyString => EmptyString
  | String c s' => if is_space c then lstrip s' else s
  end.

Fixpoint all_space (s : string) : bool :=
  match s with
  | EmptyString => true
  | String c s' => is_space c && all_space s'
  end.

Fixpoint rstrip (s : string) : string :=
  match s with
  | EmptyString => EmptyString
  | String c s' => if all_space s then EmptyString else String c (rstrip s')
  end.

Definition strip (s : string) : string := rstrip (lstrip s).

Definition startswith (s p : string) : bool := String.prefix p s.

(** [c in s] for a one-character needle. *)
Fixpoint has_char (c : ascii) (s : string) : bool :=
  match s with
  | EmptyString => false
  | String d s' => if Ascii.eqb c d then true else has_char c s'
  end.

(** [s.split(c, 1)] when [c] occurs in [s]: the text before the first
    [c] and the text after it. *)
Fixpoint split_once (c : ascii) (s : string) : string * string :=
  match s with
  | EmptyString => (EmptyString, EmptyString)
  | String d s' =>
      if Ascii.eqb c d then (EmptyString, s')
      else let '(k, v) := split_once c s' in (String d k, v)
  end.

(** [sep.join(l)]. *)
Fixpoint join (sep : string) (l : list string) : string :=
  match l with
  | [] => EmptyString
  | [x] => x
  | x :: l' => x ++ sep ++ join sep l'
  end.

(** [s.replace(old, new)]: the occurrences of [old] are found from the
    left and do not overlap.  [skip] counts the characters of a match
    still to be dropped. *)
Fixpoint replace_go (old new s : string) (skip : nat) : string :=
  match s with
  | EmptyString => EmptyString
  | String c s' =>
      match skip with
      | S n => replace_go old new s' n
      | O =>
          if String.prefix old s
          then new ++ replace_go old new s' (String.length old - 1)
          else String c (replace_go old new s' 0)
      end
  end.

Fixpoint intersperse (new s : string) : string :=
  match s with
  | EmptyString => EmptyString
  | String c s' => String c (new ++ intersperse new s')
  end.

Definition replace (old new s : string) : string :=
  match old with
  | EmptyString => new ++ intersperse new s
  | _ => replace_go old new s 0
  end.

(** [s.splitlines()]: a break ends the current line; carriage return
    followed by line feed is one break; no empty last line. *)
Fixpoint splitlines_go (cur s : string) : list string :=
  match s with
  | EmptyString => match cur with EmptyString => [] | _ => [cur] end
  | String c s' =>
      if is_linebreak c then
        cur :: match s' with
               | String d s'' =>
                   if Ascii.eqb c "013" && Ascii.eqb d "010"
                   then splitlines_go EmptyString s''
                   else splitlines_go EmptyString s'
               | EmptyString => splitlines_go EmptyString s'
               end
      else splitlines_go (cur ++ String c EmptyString) s'
  end.

Definition splitlines (s : string) : list string :=
  splitlines_go EmptyString s.

(** Reading a file in text mode with universal newlines: carriage
    return, alone or before a line feed, is read as a line feed. *)
Fixpoint universal_newlines (s : string) : string :=
  match s with
  | EmptyString => EmptyString
  | String c s' =>
      if Ascii.eqb c "013" then
        match s' with
        | String d s'' =>
            if Ascii.eqb d "010" then String "010" (universal_newlines s'')
            else String "010" (universal_newlines s')
        | EmptyString => String "010" EmptyString
        end
      else String c (universal_newlines s')
  end.

End PyStr.

(** ** Python dictionaries, in insertion order *)

Module PyDict.

Definition dict (V : Type) : Type := list (string * V).

Section Ops.
Context {V : Type}.

Fixpoint get (k : string) (d : dict V) : option V :=
  match d with
  | [] => None
  | (k', v) :: d' => if decide (k = k') then Some v else get k d'
  end.

(** [d[k] = v]: a bound key keeps its place, a new key goes last. *)
Fixpoint set (k : string) (v : V) (d : dict V) : dict V :=
  match d with
  | [] => [(k, v)]
  | (k', v') :: d' =>
      if decide (k = k') then (k, v) :: d' else (k', v') :: set k v d'
  end.

Definition keys (d : dict V) : list string := d.*1.

(** [d1 | d2]: a copy of [d1] updated with the items of [d2]. *)
Definition union (d1 d2 : dict V) : dict V :=
  foldl (fun d kv => set kv.1 kv.2 d) d1 d2.

(** A dict literal. *)
Definition literal (items : list (string * V)) : dict V := union [] items.

End Ops.

End PyDict.

(** ** generate_config.py *)

Module GenerateConfig.
Import PyStr PyDict.

(** What [yaml.safe_load] returns. *)
#[warnings="-register-all"] Inductive value : Type :=
| VStr (s : string)
| VInt (z : Z)
| VList (l : list value)
| VDict (d : gmap string value).

Inductive exn : Type :=
| KeyError (k : string)
| TypeError
| FileNotFoundError (p : string)
| SystemExit (n : Z).

(** What [generate_config] prints before it returns [None]. *)
Inductive diagnostic : Type :=
| UnsupportedArchitecture (target_arch : string) (supported : list string)
| UnsupportedMiddleware (middleware : string) (supported : list string)
| UnsupportedDistribution (ros2_distro : string) (supported : list string)
| MissingPath (p : string)
| MissingDockerfile (dockerfile_name : string).

Definition message (d : diagnostic) : string :=
  match d with
  | UnsupportedArchitecture t l =>
      "Unsupported architecture: " ++ t
      ++ ", Supported architectures: " ++ join ", " l
  | UnsupportedMiddleware m l =>
      "Unsupported middleware: " ++ m
      ++ ", Supported middlewares: " ++ join ", " l
  | UnsupportedDistribution r l =>
      "Unsupported ROS2 distribution: " ++ r
      ++ ", Supported distributions: " ++ join ", " l
  | MissingPath p => "Directory does not exist: " ++ p
  | MissingDockerfile n => "Dockerfile does not exist: " ++ n
  end.

(** [Ok a]: the value returned; [Fail d]: [d] printed and [None]
    returned; [Raise e]: an exception left uncaught. *)
Inductive result (A : Type) : Type :=
| Ok (a : A)
| Fail (d : diagnostic)
| Raise (e : exn).
Arguments Ok {A} a.
Arguments Fail {A} d.
Arguments Raise {A} e.

Inductive event : Type :=
| Probe_is_dir (p : string)
| Probe_is_file (p : string).

(** A computation: the filesystem probes it made, and how it ended. *)
Definition M (A : Type) : Type := list event * result A.

#[global] Instance M_ret : MRet M := λ A a, ([], Ok a).
#[global] Instance M_bind : MBind M := λ A B f m,
  match m with
  | (tr, Ok a) => let '(tr', r) := f a in ((tr ++ tr')%list, r)
  | (tr, Fail d) => (tr, Fail d)
  | (tr, Raise e) => (tr, Raise e)
  end.

Definition fail {A} (d : diagnostic) : M A := ([], Fail d).
Definition raise {A} (e : exn) : M A := ([], Raise e).

Record host : Type := {
  ROOT_DIR : string;
  ROBOTICS_CONTAINER_PATH : string;
  machine : string;
  joinpath : string → string → string;
  is_dir : string → bool;
  files : gmap string string;
  yaml_documents : gmap string (gmap string value);
}.

Definition is_file (h : host) (p : string) : bool :=
  bool_decide (is_Some (files h !! p)).

Definition probe_dir (h : host) (p : string) : M bool :=
  ([Probe_is_dir p], Ok (is_dir h p)).
Definition probe_file (h : host) (p : string) : M bool :=
  ([Probe_is_file p], Ok (is_file h p)).

Definition SOURCE_CONFIG : string := "env.yaml".
Definition TARGET_CONFIG : string := ".env".
Definition SOURCE_FILEPATH (h : host) : string :=
  joinpath h (joinpath h (ROBOTICS_CONTAINER_PATH h) "config") SOURCE_CONFIG.
Definition TARGET_FILEPATH (h : host) : string :=
  joinpath h (joinpath h (ROBOTICS_CONTAINER_PATH h) "config") TARGET_CONFIG.

(** [d[k]] on a loaded mapping. *)
Definition getitem (d : gmap string value) (k : string) : M value :=
  match d !! k with
  | Some v => mret v
  | None => raise (KeyError k)
  end.

(** [v[k]] with a string key: only a mapping can be subscripted so. *)
Definition subscript (v : value) (k : string) : M value :=
  match v with
  | VDict d => getitem d k
  | _ => raise TypeError
  end.

Definition as_str (v : value) : M string :=
  match v with
  | VStr s => mret s
  | _ => raise TypeError
  end.

Fixpoint str_items (l : list value) : option (list string) :=
  match l with
  | [] => Some []
  | VStr s :: l' => cons s <$> str_items l'
  | _ :: _ => None
  end.

Definition as_str_list (v : value) : M (list string) :=
  match v with
  | VList l =>
      match str_items l with
      | Some ss => mret ss
      | None => raise TypeError
      end
  | _ => raise TypeError
  end.

Definition as_list (v : value) : M (list value) :=
  match v with
  | VList l => mret l
  | _ => raise TypeError
  end.

(** [str(v)], as an f-string formats a scalar. *)
Definition format (v : value) : M string :=
  match v with
  | VStr s => mret s
  | VInt z => mret (pretty z)
  | _ => raise TypeError
  end.

(** [shlex.quote]. *)
Definition is_safe (c : ascii) : bool :=
  let n := code c in
  ((48 <=? n) && (n <=? 57) || (65 <=? n) && (n <=? 90)
   || (97 <=? n) && (n <=? 122))%N
  || has_char c "_@%+=:,./-".

Fixpoint all_safe (s : string) : bool :=
  match s with
  | EmptyString => true
  | String c s' => is_safe c && all_safe s'
  end.

Definition shlex_quote (s : string) : string :=
  if bool_decide (s = "") then "''"
  else if all_safe s then s
  else "'" ++ replace "'" (String "'" (String "034" (String "'"
               (String "034" (String "'" EmptyString))))) s ++ "'".

Definition bash_array_assignment (items : list string) : string :=
  let quoted := join " " (shlex_quote <$> items) in
  "(" ++ quoted ++ ")".

(** The loop over the extra volumes: the first one that is not a
    directory ends the resolution. *)
Fixpoint check_volumes (h : host) (volumes_list : list value)
  : M (list string) :=
  match volumes_list with
  | [] => mret []
  | volume :: rest =>
      volume ← as_str volume;
      ok ← probe_dir h volume;
      if negb ok then fail (MissingPath volume)
      else rest ← check_volumes h rest; mret (volume :: rest)
  end.

(** The branch on the middleware and the target architecture that
    chooses the base image, the build stage, the tag and the
    architecture token. *)
Definition base_image_branch (docker_base_images : value)
    (supported_architectures : list string)
    (middleware target_arch : string)
  : M (value * string * string * string) :=
  if bool_decide (middleware = "ros2") then
    if bool_decide (target_arch ∈ ["develop"; "x86_64"]) then
      base_image ← subscript docker_base_images "x86_full_image";
      mret (base_image, "develop-stage", "develop", "x86_64")
    else if bool_decide (target_arch ∈ ["deploy"; "arm"; "aarch64"]) then
      base_image ← subscript docker_base_images "arm_base_image";
      mret (base_image, "deploy-stage", "deploy", "arm")
    else
      fail (UnsupportedArchitecture target_arch supported_architectures)
  else if bool_decide (middleware = "micro-ros") then
    base_image ← subscript docker_base_images "microros_base_image";
    if bool_decide (target_arch ∈ ["develop"]) then
      mret (base_image, "develop-stage", "develop", "x86_64")
    else if bool_decide (target_arch ∈ ["deploy"]) then
      mret (base_image, "deploy-stage", "deploy", "arm")
    else
      fail (UnsupportedArchitecture target_arch supported_architectures)
  else
    fail (UnsupportedMiddleware middleware ["ros2"; "micro-ros"]).

(** The five partial mappings, in the order of the final merge. *)
Record strata : Type := {
  repo_env : dict value;
  volumes_env : dict value;
  container_env : dict value;
  base_image_env : dict value;
  image_env : dict value;
}.

(** [generate_config] up to its last statement. *)
Definition resolve_strata (h : host) (config : gmap string value)
    (target_arch : string) : M strata :=
  repo_author ← getitem config "repo_author";
  project_repo ← getitem config "project_repo";
  volumes_list ← getitem config "volumes";
  container_env ← getitem config "container_env";
  ros2_distro ← getitem config "ros2_distro";
  middleware ← getitem config "middleware";
  target_platorm ← getitem config "target_platorm";
  docker_base_images ← getitem config "docker_base_images";
  docker_file_image_container ← getitem config "docker_file_image_container";
  (* Check constraints *)
  supported ← getitem config "supported";
  supported_architectures ← subscript supported "architectures";
  supported_architectures ← as_str_list supported_architectures;
  if negb (bool_decide (target_arch ∈ supported_architectures))
  then fail (UnsupportedArchitecture target_arch supported_architectures)
  else
  supported ← getitem config "supported";
  supported_middlewares ← subscript supported "middlewares";
  supported_middlewares ← as_str_list supported_middlewares;
  middleware ← as_str middleware;
  if negb (bool_decide (middleware ∈ supported_middlewares))
  then fail (UnsupportedMiddleware middleware supported_middlewares)
  else
  supported ← getitem config "supported";
  supported_ros2_distro ← subscript supported "ros2_distros";
  supported_ros2_distro ← as_str_list supported_ros2_distro;
  ros2_distro ← as_str ros2_distro;
  if negb (bool_decide (ros2_distro ∈ supported_ros2_distro))
  then fail (UnsupportedDistribution ros2_distro supported_ros2_distro)
  else
  (* Repo env *)
  project_repo ← as_str project_repo;
  let local_project_repo_path := joinpath h (ROOT_DIR h) project_repo in
  ok ← probe_dir h local_project_repo_path;
  if negb ok then fail (MissingPath local_project_repo_path)
  else
  let repo_env := literal [
    ("REPO_AUTHOR", repo_author);
    ("PROJECT_REPO", VStr project_repo) ] in
  (* Volumes env *)
  volumes_list ← as_list volumes_list;
  volumes ← check_volumes h volumes_list;
  let volumes_env := literal [
    ("LOCAL_WS_PATH", VStr local_project_repo_path);
    ("VOLUMES", VStr (bash_array_assignment volumes)) ] in
  (* Container env *)
  container_usr ← subscript container_env "container_usr";
  container_usr_text ← format container_usr;
  let container_home := "/home/" ++ container_usr_text in
  let container_ws := container_home ++ "/" ++ project_repo in
  container_usr ← subscript container_env "container_usr";
  container_psw ← subscript container_env "container_psw";
  container_uid ← subscript container_env "container_uid";
  container_gid ← subscript container_env "container_gid";
  container_run_cmd ← getitem config "container_run_cmd";
  let container_env := literal [
    ("CONTAINER_USR", container_usr);
    ("CONTAINER_PSW", container_psw);
    ("CONTAINER_UID", container_uid);
    ("CONTAINER_GID", container_gid);
    ("CONTAINER_HOME", VStr container_home);
    ("CONTAINER_WS", VStr container_ws);
    ("CONTAINER_RUN_CMD", container_run_cmd) ] in
  (* Base image env *)
  '(base_image, build_stage, tag, arch) ←
    base_image_branch docker_base_images supported_architectures
      middleware target_arch;
  base_image ← as_str base_image;
  let base_image_env := literal [
    ("BASE_IMAGE", VStr (replace "ROS2_DISTRO" ros2_distro base_image));
    ("BUILD_STAGE", VStr build_stage);
    ("TARGET_ARCH", VStr arch);
    ("SOURCE_ARCH", VStr (machine h)) ] in
  (* Image env *)
  dockerfile ← subscript docker_file_image_container "dockerfile";
  dockerfile ← as_str dockerfile;
  let dockerfile_name := replace "MIDDLEWARE" middleware dockerfile in
  ok ← probe_file h
         (joinpath h (joinpath h (ROBOTICS_CONTAINER_PATH h) "docker")
            dockerfile_name);
  if negb ok then fail (MissingDockerfile dockerfile_name)
  else
  docker_image ← subscript docker_file_image_container "docker_image";
  docker_image ← as_str docker_image;
  repo_author_text ← as_str repo_author;
  let docker_image_name :=
    replace "ROS2_DISTRO" ros2_distro
      (replace "PROJECT_REPO" project_repo
         (replace "REPO_AUTHOR" repo_author_text docker_image)) in
  docker_container ← subscript docker_file_image_container "docker_container";
  docker_container ← as_str docker_container;
  let docker_container_name :=
    replace "TAG" tag (replace "PROJECT_REPO" project_repo docker_container) in
  let image_env := literal [
    ("DOCKERFILE", VStr dockerfile_name);
    ("DOCKER_IMAGE", VStr docker_image_name);
    ("DOCKER_CONTAINER", VStr docker_container_name);
    ("DOCKER_IMAGE_TAG", VStr tag) ] in
  mret {| repo_env := repo_env; volumes_env := volumes_env;
          container_env := container_env;
          base_image_env := base_image_env; image_env := image_env |}.

(** The final merge. *)
Definition merge (s : strata) : dict value :=
  union (union (union (union (repo_env s) (volumes_env s))
                  (container_env s)) (base_image_env s)) (image_env s).

Definition generate_config (h : host) (config : gmap string value)
    (target_arch : string) : M (dict value) :=
  s ← resolve_strata h config target_arch;
  mret (merge s).

Definition load_yaml_config (h : host) (file_path : string)
  : M (gmap string value) :=
  match yaml_documents h !! file_path with
  | Some config => mret config
  | None => raise (FileNotFoundError file_path)
  end.

Definition LF : string := String "010" EmptyString.

(** The lines [write_env_config] writes, one per item, in order. *)
Fixpoint env_lines (items : dict value) : M string :=
  match items with
  | [] => mret EmptyString
  | (key, value) :: rest =>
      text ← format value;
      rest ← env_lines rest;
      mret (key ++ "=" ++ text ++ LF ++ rest)
  end.

Definition write_file (h : host) (path text : string) : host :=
  {| ROOT_DIR := ROOT_DIR h;
     ROBOTICS_CONTAINER_PATH := ROBOTICS_CONTAINER_PATH h;
     machine := machine h;
     joinpath := joinpath h;
     is_dir := is_dir h;
     files := <[path := text]> (files h);
     yaml_documents := yaml_documents h |}.

Definition write_env_config (h : host) (env_vars : dict value)
    (filename : string) : M host :=
  text ← env_lines env_vars;
  mret (write_file h filename text).

(** How a command ends: the host it leaves, what it printed, and the
    exception it raised, if any. *)
Record outcome : Type := {
  store : host;
  printed : list string;
  raised : option exn;
}.

Definition main (h : host) (target_arch : string) : outcome :=
  match load_yaml_config h (SOURCE_FILEPATH h) with
  | (_, Ok config) =>
      match generate_config h config target_arch with
      | (_, Ok env_vars) =>
          match write_env_config h env_vars (TARGET_FILEPATH h) with
          | (_, Ok h') => {| store := h'; printed := []; raised := None |}
          | (_, Fail d) =>
              {| store := h; printed := [message d]; raised := None |}
          | (_, Raise e) =>
              {| store := h; printed := []; raised := Some e |}
          end
      | (_, Fail d) =>
          {| store := h;
             printed := [message d;
                         "Configuration generation failed. Exiting."];
             raised := None |}
      | (_, Raise e) => {| store := h; printed := []; raised := Some e |}
      end
  | (_, Fail d) => {| store := h; printed := [message d]; raised := None |}
  | (_, Raise e) => {| store := h; printed := []; raised := Some e |}
  end.

End GenerateConfig.

(** ** build.py: the resolution step, the reader of the persisted
    environment, architecture tokens and the platform option *)

Module Build.
Import PyStr PyDict GenerateConfig.

Definition run_generate_config (h : host) (root_dir : string)
    (target_arch : option string) : outcome :=
  let config_path := joinpath h (joinpath h root_dir "config") "env.yaml" in
  match load_yaml_config h config_path with
  | (_, Ok config) =>
      let target :=
        match target_arch with
        | Some t => if bool_decide (t = "") then machine h else t
        | None => machine h
        end in
      match generate_config h config target with
      | (_, Ok env_vars) =>
          let env_path := joinpath h (joinpath h root_dir "config") ".env" in
          match write_env_config h env_vars env_path with
          | (_, Ok h') => {| store := h'; printed := []; raised := None |}
          | (_, Fail d) =>
              {| store := h; printed := [message d]; raised := None |}
          | (_, Raise e) =>
              {| store := h; printed := []; raised := Some e |}
          end
      | (_, Fail d) =>
          {| store := h;
             printed := [message d;
                         "Configuration generation failed. Exiting."];
             raised := Some (SystemExit 1) |}
      | (_, Raise e) => {| store := h; printed := []; raised := Some e |}
      end
  | (_, Fail d) => {| store := h; printed := [message d]; raised := None |}
  | (_, Raise e) => {| store := h; printed := []; raised := Some e |}
  end.

(** One line of the loop of [parse_env_file]. *)
Definition parse_line (env : dict string) (line : string) : dict string :=
  let line := strip line in
  if bool_decide (line = "") || startswith line "#" then env
  else if negb (has_char "=" line) then env
  else
    let '(key, val) := split_once "=" line in
    set (strip key) (strip val) env.

Definition parse_env_text (text : string) : dict string :=
  foldl parse_line [] (splitlines text).

Definition parse_env_file (h : host) (env_path : string)
  : result (dict string) :=
  match files h !! env_path with
  | None => Raise (FileNotFoundError env_path)
  | Some content => Ok (parse_env_text (universal_newlines content))
  end.

Definition normalize_arch (a : string) : string :=
  let a := lower (strip a) in
  if bool_decide (a ∈ ["arm64"]) then "aarch64"
  else if startswith a "armv7" || bool_decide (a = "armv7l") then "armv7"
  else a.

Definition choose_platform_option (target_arch source_arch : string)
  : option string :=
  let targ := normalize_arch target_arch in
  let src := normalize_arch source_arch in
  if bool_decide (targ ∈ ["develop"; "x86_64"])
  then Some "--platform=linux/amd64"
  else if bool_decide (targ ∈ ["deploy"; "arm"; "aarch64"])
  then Some "--platform=linux/arm64"
  else if bool_decide (targ = "armv7")
  then Some "--platform=linux/arm/v7"
  else None.

End Build.

(** ** run.py: the same two helpers, as run.py writes them *)

Module Run.
Import PyStr.

Definition normalize_arch (a : string) : string :=
  if bool_decide (a = "") then ""
  else
    let s := lower (strip a) in
    if bool_decide (s ∈ ["arm64"]) then "aarch64"
    else if bool_decide (s ∈ ["arm"; "armv7l"]) || startswith s "armv7"
    then "arm"
    else s.

Definition choose_platform_option (target_arch source_arch : string)
  : option string :=
  let targ := normalize_arch target_arch in
  let src := normalize_arch source_arch in
  if bool_decide (targ ∈ ["develop"; "x86_64"])
  then Some "--platform=linux/amd64"
  else if bool_decide (targ ∈ ["deploy"; "arm"; "aarch64"])
  then Some "--platform=linux/arm64"
  else if bool_decide (targ = "armv7")
  then Some "--platform=linux/arm/v7"
  else None.

End Run.

(** ** shlex.split and pathlib's name, as run.py uses them *)

Module Shlex.
Import PyStr.

(** The state of the lexer: between tokens, in a word, in a quotation
    opened by [q], or after a backslash met in a word ([None]) or in the
    quotation opened by [q] ([Some q]). *)
Inductive state : Type :=
| Blank
| Word
| Quote (q : ascii)
| Escape (escapedstate : option ascii).

Inductive outcome : Type :=
| Tokens (l : list string)
| ValueError (msg : string).

Definition is_whitespace (c : ascii) : bool :=
  Ascii.eqb c " " || Ascii.eqb c "009" || Ascii.eqb c "013"
  || Ascii.eqb c "010".

Definition is_quote (c : ascii) : bool :=
  Ascii.eqb c "'" || Ascii.eqb c "034".

Definition is_escape (c : ascii) : bool := Ascii.eqb c "092".

Definition emit (token : string) (r : outcome) : outcome :=
  match r with
  | Tokens l => Tokens (token :: l)
  | ValueError msg => ValueError msg
  end.

Definition pending (token : string) (quoted : bool) : bool :=
  negb (bool_decide (token = "")) || quoted.

(** [read_token], called until the end of the input, in POSIX mode with
    [whitespace_split] and without commenters, as [shlex.split] sets the
    lexer up. *)
Fixpoint lex (st : state) (quoted : bool) (token s : string) : outcome :=
  match s with
  | EmptyString =>
      match st with
      | Blank | Word => if pending token quoted then Tokens [token] else Tokens []
      | Quote _ => ValueError "No closing quotation"
      | Escape _ => ValueError "No escaped character"
      end
  | String c s' =>
      match st with
      | Blank =>
          if is_whitespace c then
            if pending token quoted then emit token (lex Blank false "" s')
            else lex Blank quoted token s'
          else if is_escape c then lex (Escape None) quoted token s'
          else if is_quote c then lex (Quote c) quoted token s'
          else lex Word quoted (String c "") s'
      | Quote q =>
          if Ascii.eqb c q then lex Word true token s'
          else if is_escape c && Ascii.eqb q "034"
          then lex (Escape (Some q)) true token s'
          else lex (Quote q) true (token ++ String c "") s'
      | Escape None => lex Word quoted (token ++ String c "") s'
      | Escape (Some q) =>
          if negb (is_escape c) && negb (Ascii.eqb c q)
          then lex (Quote q) quoted (token ++ String "092" (String c "")) s'
          else lex (Quote q) quoted (token ++ String c "") s'
      | Word =>
          if is_whitespace c then
            if pending token quoted then emit token (lex Blank false "" s')
            else lex Blank quoted token s'
          else if is_quote c then lex (Quote c) quoted token s'
          else if is_escape c then lex (Escape None) quoted token s'
          else lex Word quoted (token ++ String c "") s'
      end
  end.

Definition split (s : string) : outcome := lex Blank false "" s.

End Shlex.

Module PyPath.

(** The components of a POSIX path: what is between slashes, without the
    empty ones and the single dots. *)
Fixpoint parts_go (cur s : string) : list string :=
  let close (rest : list string) :=
    if bool_decide (cur = "") || bool_decide (cur = ".") then rest
    else cur :: rest in
  match s with
  | EmptyString => close []
  | String c s' =>
      if Ascii.eqb c "/" then close (parts_go "" s')
      else parts_go (cur ++ String c "") s'
  end.

(** [Path(p).name]: the last component, or the empty string. *)
Definition name (p : string) : string := List.last (parts_go "" p) "".

End PyPath.

(** ** run.py: the array of volumes and the docker run command *)

Module RunCommand.
Import PyStr PyDict GenerateConfig.

Definition drop_first (s : string) : string :=
  match s with
  | EmptyString => EmptyString
  | String _ s' => s'
  end.

Fixpoint drop_last (s : string) : string :=
  match s with
  | EmptyString => EmptyString
  | String c s' =>
      match s' with
      | EmptyString => EmptyString
      | _ => String c (drop_last s')
      end
  end.

(** [s.endswith(c)] for a one-character [c]. *)
Fixpoint endswith_char (s : string) (c : ascii) : bool :=
  match s with
  | EmptyString => false
  | String d s' =>
      match s' with
      | EmptyString => Ascii.eqb d c
      | _ => endswith_char s' c
      end
  end.

Definition parse_bash_array (value : string) : Shlex.outcome :=
  let v := strip value in
  if bool_decide (v = "") then Shlex.Tokens []
  else if startswith v "(" && endswith_char v ")" then
    let inner := strip (drop_last (drop_first v)) in
    if bool_decide (inner = "") then Shlex.Tokens []
    else Shlex.split inner
  else
    match Shlex.split v with
    | Shlex.Tokens l => Shlex.Tokens l
    | Shlex.ValueError _ => Shlex.Tokens [v]
    end.

(** The two probes of the docker daemon. *)
Record docker : Type := {
  docker_image_exists : string → string → bool;
  container_running : string → bool;
}.

(** An element of the list [docker_run]: a string, or the empty list
    that [platform_opt or []] leaves there when there is no option. *)
Inductive arg : Type :=
| Arg (s : string)
| EmptyList.

(** How [run] ends once the environment is parsed. *)
Inductive run_result : Type :=
| Raises (e : exn)
| RaisesValueError (msg : string)
| ExitMissing (missing : list string)
| ExitNoImage (docker_image docker_image_tag : string)
| Join (cmd : list string)
| Create (cmd : list arg).

Definition item (env : dict string) (k : string)
    (cont : string → run_result) : run_result :=
  match get k env with
  | Some v => cont v
  | None => Raises (KeyError k)
  end.

(** [env.setdefault(k, v)]. *)
Definition setdefault (k v : string) (env : dict string) : dict string :=
  match get k env with
  | Some _ => env
  | None => set k v env
  end.

Definition required : list string :=
  ["DOCKER_IMAGE"; "DOCKER_IMAGE_TAG"; "DOCKER_CONTAINER"; "LOCAL_WS_PATH";
   "CONTAINER_WS"; "CONTAINER_HOME"; "VOLUMES"; "TARGET_ARCH"; "SOURCE_ARCH";
   "CONTAINER_UID"; "CONTAINER_USR"; "CONTAINER_GID"; "CONTAINER_RUN_CMD"].

Definition extra_volume (container_home vol : string) : string :=
  "-v" ++ vol ++ ":" ++ container_home ++ "/" ++ PyPath.name vol ++ ":rw".

(** [run], from the parsed environment on.  [environ] is [os.environ]. *)
Definition run_from_env (environ : gmap string string) (d : docker)
    (env : dict string) : run_result :=
  item env "DOCKER_IMAGE" (λ docker_image,
  item env "DOCKER_IMAGE_TAG" (λ docker_image_tag,
  item env "CONTAINER_USR" (λ container_user,
  item env "CONTAINER_UID" (λ container_uid,
  item env "CONTAINER_GID" (λ container_gid,
  item env "CONTAINER_RUN_CMD" (λ container_cmd,
  item env "CONTAINER_WS" (λ container_ws,
  item env "DOCKER_CONTAINER" (λ container_name,
  let env := setdefault "DISPLAY" (default "" (environ !! "DISPLAY")) env in
  let env :=
    setdefault "HOSTNAME" (default "localhost" (environ !! "HOSTNAME")) env in
  let missing :=
    filter (λ k, get k env = None) required in
  if negb (bool_decide (missing = [])) then ExitMissing missing
  else if negb (docker_image_exists d docker_image docker_image_tag)
  then ExitNoImage docker_image docker_image_tag
  else if container_running d container_name then
    item env "CONTAINER_WS" (λ ws,
    Join ["docker"; "exec"; "-it"; "-w"; ws; container_name;
          "/bin/bash"; "-c"; "/entrypoint.sh ; /bin/bash"])
  else
    item env "LOCAL_WS_PATH" (λ local_ws,
    item env "CONTAINER_WS" (λ ws,
    item env "VOLUMES" (λ extra_volumes,
    item env "CONTAINER_HOME" (λ container_home,
    item env "TARGET_ARCH" (λ target,
    item env "SOURCE_ARCH" (λ source,
    item env "DISPLAY" (λ display,
    item env "HOSTNAME" (λ hostname,
    let main_volume := "-v" ++ local_ws ++ ":" ++ ws ++ ":rw" in
    let assemble (extra : list string) :=
      let docker_volumes := main_volume :: extra in
      let platform_opt := Run.choose_platform_option target source in
      Create
        ((Arg <$>
            ["docker"; "run"; "-it"; "--rm"; "--privileged";
             "--cap-add"; "IPC_LOCK";
             "--ulimit"; "memlock=-1:-1";
             "--device"; "/dev:/dev";
             "--network"; "host";
             "-e"; "LOCAL_USER_ID=" +:+ container_uid;
             "-e"; "USER=" +:+ container_user;
             "-e"; "UID=" +:+ container_uid;
             "-e"; "GROUPS=" +:+ container_gid;
             "-e"; "DISPLAY=" +:+ display;
             "-e"; "QT_X11_NO_MITSHM=1";
             "-e"; "XAUTHORITY=/tmp/.docker.xauth";
             "-p"; "14556:14556/udp";
             "-p"; "8888-8890:8888-8890/udp";
             "-v"; "/etc/localtime:/etc/localtime:ro";
             "-v"; "/tmp/.X11-unix:/tmp/.X11-unix";
             "-v"; "/tmp/.docker.xauth:/tmp/.docker.xauth";
             "-v"; "/dev/shm:/dev/shm"])
         ++ (Arg <$> docker_volumes)
         ++ [match platform_opt with Some o => Arg o | None => EmptyList end]
         ++ (Arg <$>
               ["-h"; hostname; "-w"; ws; "--name"; container_name;
                docker_image +:+ ":" +:+ docker_image_tag; container_cmd]))%list
    in
    if negb (bool_decide (extra_volumes = "()")) then
      match parse_bash_array extra_volumes with
      | Shlex.Tokens vols => assemble (extra_volume container_home <$> vols)
      | Shlex.ValueError msg => RaisesValueError msg
      end
    else assemble [])))))))))))))))).

End RunCommand.

(** ** build.py: the docker build command *)

Module BuildCommand.
Import PyStr PyDict GenerateConfig.

Definition TARGET_CONFIG_PATH : string := "config/" ++ TARGET_CONFIG.

Fixpoint make_build_args (env : dict string) (keys : dict string)
  : result (list string) :=
  match keys with
  | [] => Ok []
  | (build_key, env_key) :: rest =>
      match get env_key env with
      | None =>
          Raise (KeyError ("Required variable " ++ env_key ++ " not found in "
                           ++ TARGET_CONFIG))
      | Some val =>
          match make_build_args env rest with
          | Ok out => Ok ("--build-arg" :: (build_key ++ "=" ++ val) :: out)
          | Fail d => Fail d
          | Raise e => Raise e
          end
      end
  end.

Definition required : list string :=
  ["DOCKERFILE"; "DOCKER_IMAGE"; "DOCKER_IMAGE_TAG"; "BUILD_STAGE";
   "BASE_IMAGE"; "CONTAINER_USR"; "CONTAINER_PSW"; "CONTAINER_UID";
   "CONTAINER_GID"; "TARGET_ARCH"; "SOURCE_ARCH"].

Definition build_arg_map : dict string :=
  [("CONTAINER_USR", "CONTAINER_USR"); ("CONTAINER_PSW", "CONTAINER_PSW");
   ("CONTAINER_UID", "CONTAINER_UID"); ("CONTAINER_GID", "CONTAINER_GID")].

(** How [build] ends: an exit status, the exit for a missing required
    variable, an exception left uncaught, or the docker command it runs
    on the host it leaves. *)
Inductive build_result : Type :=
| BuildExit (code : Z)
| BuildMissing (k : string)
| BuildRaise (e : exn)
| BuildRun (h : host) (cmd : list string).

Definition item (h : host) (env : dict string) (k : string)
    (cont : string → build_result) : build_result :=
  match get k env with
  | Some v => cont v
  | None => BuildRaise (KeyError k)
  end.

(** [build], from the parsed environment on. *)
Definition build_from_env (h : host) (root_dir : string) (env : dict string)
  : build_result :=
  match List.find (λ k, bool_decide (get k env = None)) required with
  | Some k => BuildMissing k
  | None =>
      item h env "DOCKERFILE" (λ DOCKERFILE,
      item h env "DOCKER_IMAGE" (λ DOCKER_IMAGE,
      item h env "DOCKER_IMAGE_TAG" (λ DOCKER_IMAGE_TAG,
      item h env "BUILD_STAGE" (λ BUILD_STAGE,
      item h env "BASE_IMAGE" (λ BASE_IMAGE,
      match make_build_args env build_arg_map with
      | Raise _ | Fail _ => BuildExit 6
      | Ok build_args_list =>
          item h env "TARGET_ARCH" (λ target,
          item h env "SOURCE_ARCH" (λ source,
          let platform_opt := Build.choose_platform_option target source in
          BuildRun h
            (["docker"; "build"; "--pull"; "--rm";
              "--build-arg"; "BASE_IMAGE=" +:+ BASE_IMAGE]
             ++ build_args_list
             ++ ["-f"; joinpath h (joinpath h root_dir "docker") DOCKERFILE;
                 "--target"; BUILD_STAGE;
                 "-t"; DOCKER_IMAGE +:+ ":" +:+ DOCKER_IMAGE_TAG]
             ++ match platform_opt with Some o => [o] | None => [] end
             ++ [root_dir])%list))
      end)))))
  end.

Definition build (h : host) (root_dir : string) (target_arch : option string)
  : build_result :=
  let generated := Build.run_generate_config h root_dir target_arch in
  match raised generated with
  | Some (FileNotFoundError _) => BuildExit 4
  | Some (SystemExit code) => BuildExit code
  | Some e => BuildRaise e
  | None =>
      let env_file := joinpath h root_dir TARGET_CONFIG_PATH in
      match Build.parse_env_file (store generated) env_file with
      | Ok env => build_from_env (store generated) root_dir env
      | Raise (FileNotFoundError _) => BuildExit 4
      | Raise e => BuildRaise e
      | Fail _ => BuildExit 4
      end
  end.

End BuildCommand.

(** ** config.py: the reader of the persisted environment *)

Module Config.
Import PyStr PyDict.

(** The lines a text file yields when iterated: each ends at a line
    feed, which it keeps. *)
Fixpoint file_lines_go (cur s : string) : list string :=
  match s with
  | EmptyString => match cur with EmptyString => [] | _ => [cur] end
  | String c s' =>
      if Ascii.eqb c "010" then (cur ++ String c "") :: file_lines_go "" s'
      else file_lines_go (cur ++ String c "") s'
  end.

Definition file_lines (s : string) : list string := file_lines_go "" s.

(** [s.strip(c)] for a one-character [c]. *)
Fixpoint lstrip_char (c : ascii) (s : string) : string :=
  match s with
  | EmptyString => EmptyString
  | String d s' => if Ascii.eqb d c then lstrip_char c s' else s
  end.

Fixpoint all_char (c : ascii) (s : string) : bool :=
  match s with
  | EmptyString => true
  | String d s' => Ascii.eqb d c && all_char c s'
  end.

Fixpoint rstrip_char (c : ascii) (s : string) : string :=
  match s with
  | EmptyString => EmptyString
  | String d s' => if all_char c s then EmptyString else String d (rstrip_char c s')
  end.

Definition strip_char (c : ascii) (s : string) : string :=
  rstrip_char c (lstrip_char c s).

Definition load_line (env_vars : dict string) (line : string) : dict string :=
  let line := strip line in
  if bool_decide (line = "") || startswith line "#" then env_vars
  else if negb (has_char "=" line) then env_vars
  else
    let '(key, val) := split_once "=" line in
    set (strip key) (strip_char "'" (strip_char "034" (strip val))) env_vars.

(** [load_env_file], on the text of the file. *)
Definition load_env_text (text : string) : dict string :=
  foldl load_line [] (file_lines (universal_newlines text)).

End Config.

(** * Vocabulary of the properties *)

Import PyStr PyDict GenerateConfig.

(** The keys [generate_config] reads first, up to [target_platorm]. *)
Definition opening_keys : list string :=
  ["repo_author"; "project_repo"; "volumes"; "container_env"; "ros2_distro";
   "middleware"; "target_platorm"].

(** Modelled from the spec: the required top-level fields that section 6
    of the specification lists for the declarative input. *)
Definition spec_required_fields : list string :=
  ["repo_author"; "project_repo"; "volumes"; "container_env"; "ros2_distro";
   "middleware"; "docker_base_images"; "docker_file_image_container";
   "container_run_cmd"; "supported"].

(** The four ways the branch on middleware and target returns. *)
Inductive branch_row (docker_base_images : value) (middleware t : string)
  : value * string * string * string → Prop :=
| Row_ros2_develop bi :
    middleware = "ros2" → t ∈ ["develop"; "x86_64"] →
    subscript docker_base_images "x86_full_image" = ([], Ok bi) →
    branch_row docker_base_images middleware t
      (bi, "develop-stage", "develop", "x86_64")
| Row_ros2_deploy bi :
    middleware = "ros2" → t ∈ ["deploy"; "arm"; "aarch64"] →
    subscript docker_base_images "arm_base_image" = ([], Ok bi) →
    branch_row docker_base_images middleware t
      (bi, "deploy-stage", "deploy", "arm")
| Row_micro_ros_develop bi :
    middleware = "micro-ros" → t = "develop" →
    subscript docker_base_images "microros_base_image" = ([], Ok bi) →
    branch_row docker_base_images middleware t
      (bi, "develop-stage", "develop", "x86_64")
| Row_micro_ros_deploy bi :
    middleware = "micro-ros" → t = "deploy" →
    subscript docker_base_images "microros_base_image" = ([], Ok bi) →
    branch_row docker_base_images middleware t
      (bi, "deploy-stage", "deploy", "arm").

(** [ROOT_DIR / project_repo]. *)
Definition repo_path (h : host) (project_repo : string) : string :=
  joinpath h (ROOT_DIR h) project_repo.

(** [ROBOTICS_CONTAINER_PATH / "docker" / dockerfile_name]. *)
Definition dockerfile_path (h : host) (dockerfile_name : string) : string :=
  joinpath h (joinpath h (ROBOTICS_CONTAINER_PATH h) "docker") dockerfile_name.

(** The conditions under which [resolve_strata] returns, the probes it
    makes then, and the five mappings it builds. *)
Inductive resolved (h : host) (config : gmap string value) (t : string)
  : list event → strata → Prop :=
| Resolved repo_author project_repo volumes cenv ros2_distro middleware
    target_platorm dbi dfic supported archs mws distros
    usr usr_text psw uid gid run_cmd
    base_image build_stage tag arch dockerfile docker_image docker_container :
    config !! "repo_author" = Some (VStr repo_author) →
    config !! "project_repo" = Some (VStr project_repo) →
    config !! "volumes" = Some (VList (VStr <$> volumes)) →
    config !! "container_env" = Some (VDict cenv) →
    config !! "ros2_distro" = Some (VStr ros2_distro) →
    config !! "middleware" = Some (VStr middleware) →
    config !! "target_platorm" = Some target_platorm →
    config !! "docker_base_images" = Some dbi →
    config !! "docker_file_image_container" = Some (VDict dfic) →
    config !! "supported" = Some (VDict supported) →
    supported !! "architectures" = Some (VList (VStr <$> archs)) →
    t ∈ archs →
    supported !! "middlewares" = Some (VList (VStr <$> mws)) →
    middleware ∈ mws →
    supported !! "ros2_distros" = Some (VList (VStr <$> distros)) →
    ros2_distro ∈ distros →
    is_dir h (repo_path h project_repo) = true →
    Forall (λ v, is_dir h v = true) volumes →
    cenv !! "container_usr" = Some usr →
    format usr = ([], Ok usr_text) →
    cenv !! "container_psw" = Some psw →
    cenv !! "container_uid" = Some uid →
    cenv !! "container_gid" = Some gid →
    config !! "container_run_cmd" = Some run_cmd →
    branch_row dbi middleware t (VStr base_image, build_stage, tag, arch) →
    dfic !! "dockerfile" = Some (VStr dockerfile) →
    is_file h (dockerfile_path h (replace "MIDDLEWARE" middleware dockerfile))
      = true →
    dfic !! "docker_image" = Some (VStr docker_image) →
    dfic !! "docker_container" = Some (VStr docker_container) →
    resolved h config t
      (Probe_is_dir (repo_path h project_repo)
         :: (Probe_is_dir <$> volumes)
         ++ [Probe_is_file
               (dockerfile_path h (replace "MIDDLEWARE" middleware dockerfile))])
      {| repo_env :=
           [("REPO_AUTHOR", VStr repo_author);
            ("PROJECT_REPO", VStr project_repo)];
         volumes_env :=
           [("LOCAL_WS_PATH", VStr (repo_path h project_repo));
            ("VOLUMES", VStr (bash_array_assignment volumes))];
         container_env :=
           [("CONTAINER_USR", usr); ("CONTAINER_PSW", psw);
            ("CONTAINER_UID", uid); ("CONTAINER_GID", gid);
            ("CONTAINER_HOME", VStr ("/home/" ++ usr_text));
            ("CONTAINER_WS",
             VStr (("/home/" ++ usr_text) ++ "/" ++ project_repo));
            ("CONTAINER_RUN_CMD", run_cmd)];
         base_image_env :=
           [("BASE_IMAGE", VStr (replace "ROS2_DISTRO" ros2_distro base_image));
            ("BUILD_STAGE", VStr build_stage);
            ("TARGET_ARCH", VStr arch);
            ("SOURCE_ARCH", VStr (machine h))];
         image_env :=
           [("DOCKERFILE", VStr (replace "MIDDLEWARE" middleware dockerfile));
            ("DOCKER_IMAGE",
             VStr (replace "ROS2_DISTRO" ros2_distro
                     (replace "PROJECT_REPO" project_repo
                        (replace "REPO_AUTHOR" repo_author docker_image))));
            ("DOCKER_CONTAINER",
             VStr (replace "TAG" tag
                     (replace "PROJECT_REPO" project_repo docker_container)));
            ("DOCKER_IMAGE_TAG", VStr tag)] |}.

(** The five partial mappings, in merge order. *)
Definition strata_list (s : strata) : list (dict value) :=
  [repo_env s; volumes_env s; container_env s; base_image_env s; image_env s].

(** No two lists of the family share an element. *)
Definition pairwise_disjoint (l : list (list string)) : Prop :=
  ∀ i j a b, i ≠ j → l !! i = Some a → l !! j = Some b → a ## b.

(** [old in s]. *)
Fixpoint occurs (old s : string) : bool :=
  String.prefix old s
  || match s with
     | EmptyString => false
     | String _ s' => occurs old s'
     end.

(** The placeholder tokens of the templates. *)
Definition placeholders : list string :=
  ["REPO_AUTHOR"; "PROJECT_REPO"; "ROS2_DISTRO"; "MIDDLEWARE"; "TAG"].

(** The keys of the names generated from templates. *)
Definition generated_names : list string :=
  ["BASE_IMAGE"; "DOCKERFILE"; "DOCKER_IMAGE"; "DOCKER_CONTAINER"].

(** A placeholder token is still present in one of the generated names. *)
Definition leaks (env : dict value) : Prop :=
  ∃ key name p,
    key ∈ generated_names ∧ get key env = Some (VStr name)
    ∧ p ∈ placeholders ∧ occurs p name = true.

(** Modelled from the spec: a placeholder left after substitution is a
    failure of the resolution, never part of a returned environment. *)
Definition unresolved_placeholder_fails (h : host)
    (config : gmap string value) (t : string) : Prop :=
  ∀ tr env, generate_config h config t = (tr, Ok env) → ¬ leaks env.

(** The keys [generate_config] reads before its first check. *)
Definition header_keys : list string :=
  ["repo_author"; "project_repo"; "volumes"; "container_env"; "ros2_distro";
   "middleware"; "target_platorm"; "docker_base_images";
   "docker_file_image_container"].

(** The keys read before the first check are bound. *)
Definition has_fields (config : gmap string value) : Prop :=
  Forall (λ k, is_Some (config !! k)) header_keys.

(** The list of strings the [supported] block declares under [name]. *)
Definition supported_set (config : gmap string value) (name : string)
  : option (list string) :=
  match config !! "supported" with
  | Some (VDict d) =>
      match d !! name with
      | Some (VList l) => str_items l
      | _ => None
      end
  | _ => None
  end.

(** The configuration is one of the schema: the keys read first are
    bound, the three supported sets are lists of strings, and middleware,
    distribution and project name are strings. *)
Definition declares (config : gmap string value)
    (archs mws distros : list string) (mw distro project_repo : string)
  : Prop :=
  has_fields config
  ∧ supported_set config "architectures" = Some archs
  ∧ supported_set config "middlewares" = Some mws
  ∧ supported_set config "ros2_distros" = Some distros
  ∧ config !! "middleware" = Some (VStr mw)
  ∧ config !! "ros2_distro" = Some (VStr distro)
  ∧ config !! "project_repo" = Some (VStr project_repo).

(** The paths whose existence the validation has to check. *)
Definition paths_to_check (h : host) (config : gmap string value)
  : list string :=
  (match config !! "project_repo" with
   | Some (VStr p) => [repo_path h p]
   | _ => []
   end
   ++ match config !! "volumes" with
      | Some (VList l) => default [] (str_items l)
      | _ => []
      end)%list.

(** Modelled from the spec: all four checks run on every invocation, so
    every path to check is probed whatever the other checks find. *)
Definition all_checks_run (h : host) (config : gmap string value)
    (t : string) : Prop :=
  ∀ p, p ∈ paths_to_check h config →
       Probe_is_dir p ∈ (generate_config h config t).1.

(** Every character of [s] satisfies [p]. *)
Fixpoint all_chars (p : ascii → bool) (s : string) : bool :=
  match s with
  | EmptyString => true
  | String c s' => p c && all_chars p s'
  end.

(** No character at which [str.splitlines] breaks a line. *)
Definition no_break (s : string) : bool :=
  all_chars (λ c, negb (is_linebreak c)) s.

(** No carriage return. *)
Definition no_cr (s : string) : bool :=
  all_chars (λ c, negb (Ascii.eqb c "013")) s.

(** A key that the reader takes as it is: no line break, no equals sign,
    no leading hash, no blank at either end. *)
Definition key_ok (k : string) : bool :=
  no_break k && negb (has_char "=" k) && negb (startswith k "#")
  && bool_decide (strip k = k).

(** A value that the reader takes as it is: no line break and no blank at
    either end. *)
Definition value_ok (v : string) : bool :=
  no_break v && bool_decide (strip v = v).

(** A mapping of strings, as an environment of values. *)
Definition lift (env : dict string) : dict value :=
  (λ kv, (kv.1, VStr kv.2)) <$> env.

(** The text [write_env_config] writes for a mapping of strings. *)
Fixpoint env_text (env : dict string) : string :=
  match env with
  | [] => ""
  | (k, v) :: rest => k ++ "=" ++ v ++ LF ++ env_text rest
  end.

(** Modelled from the spec: written to [filename] and parsed back, the
    mapping is the one that was written. *)
Definition round_trips (h : host) (env : dict string) (filename : string)
  : Prop :=
  ∃ h', write_env_config h (lift env) filename = ([], Ok h')
        ∧ Build.parse_env_file h' filename = Ok env.

(** ** Checkouts to run the functions on *)

(** A configuration of the schema, middleware ros2. *)
Definition config0 : gmap string value :=
  list_to_map [
    ("repo_author", VStr "Vince-94");
    ("project_repo", VStr "robot_ws");
    ("volumes", VList [VStr "/data"; VStr "/opt/my maps"]);
    ("container_env", VDict (list_to_map [
        ("container_usr", VStr "dev"); ("container_psw", VStr "dev");
        ("container_uid", VStr "1000"); ("container_gid", VStr "1000")]));
    ("ros2_distro", VStr "jazzy");
    ("middleware", VStr "ros2");
    ("target_platorm", VStr "linux/amd64");
    ("docker_base_images", VDict (list_to_map [
        ("x86_full_image", VStr "osrf/ros:ROS2_DISTRO-desktop-full");
        ("arm_base_image", VStr "arm64v8/ros:ROS2_DISTRO-ros-base");
        ("microros_base_image", VStr "microros/base:ROS2_DISTRO")]));
    ("docker_file_image_container", VDict (list_to_map [
        ("dockerfile", VStr "Dockerfile.MIDDLEWARE");
        ("docker_image", VStr "REPO_AUTHOR/PROJECT_REPO-ROS2_DISTRO");
        ("docker_container", VStr "PROJECT_REPO-TAG-container")]));
    ("container_run_cmd", VStr "bash");
    ("supported", VDict (list_to_map [
        ("architectures",
         VList [VStr "x86_64"; VStr "aarch64"; VStr "arm"; VStr "develop";
                VStr "deploy"]);
        ("middlewares", VList [VStr "ros2"; VStr "micro-ros"]);
        ("ros2_distros", VList [VStr "humble"; VStr "jazzy"])]))
  ].

(** A checkout in which every path [config0] names exists. *)
Definition host0 : host := {|
  ROOT_DIR := "/home/u";
  ROBOTICS_CONTAINER_PATH := "/home/u/rc";
  machine := "x86_64";
  joinpath := λ a b, a ++ "/" ++ b;
  is_dir := λ p, bool_decide (p ∈ ["/home/u/robot_ws"; "/data"; "/opt/my maps"]);
  files := list_to_map [("/home/u/rc/docker/Dockerfile.ros2", "FROM base");
                        ("/home/u/rc/docker/Dockerfile.micro-ros", "FROM base")];
  yaml_documents := list_to_map [("/home/u/rc/config/env.yaml", config0)]
|}.

(** [config0] with the token TAG in the image-name template. *)
Definition config_tagged_image : gmap string value :=
  <["docker_file_image_container" := VDict (list_to_map [
      ("dockerfile", VStr "Dockerfile.MIDDLEWARE");
      ("docker_image", VStr "REPO_AUTHOR/PROJECT_REPO:TAG");
      ("docker_container", VStr "PROJECT_REPO-TAG-container")])]> config0.

(** [config0] without the key [target_platorm]. *)
Definition config_without_target_platorm : gmap string value :=
  delete "target_platorm" config0.

(** A host on which the second extra volume of [config0] is missing. *)
Definition host_without_maps : host := {|
  ROOT_DIR := "/home/u";
  ROBOTICS_CONTAINER_PATH := "/home/u/rc";
  machine := "x86_64";
  joinpath := λ a b, a ++ "/" ++ b;
  is_dir := λ p, bool_decide (p ∈ ["/home/u/robot_ws"; "/data"]);
  files := list_to_map [("/home/u/rc/docker/Dockerfile.ros2", "FROM base")];
  yaml_documents := list_to_map [("/home/u/rc/config/env.yaml", config0)]
|}.

(** [config0] with a middleware outside the supported ones. *)
Definition config_other_middleware : gmap string value :=
  <["middleware" := VStr "ros1"]> config0.

(** A checkout of [config_other_middleware] with an earlier .env. *)
Definition host_other_middleware : host := {|
  ROOT_DIR := "/home/u";
  ROBOTICS_CONTAINER_PATH := "/home/u/rc";
  machine := "x86_64";
  joinpath := λ a b, a ++ "/" ++ b;
  is_dir := λ p, bool_decide (p ∈ ["/home/u/robot_ws"; "/data"]);
  files := list_to_map [("/home/u/rc/config/.env", "BUILD_STAGE=old")];
  yaml_documents :=
    list_to_map [("/home/u/rc/config/env.yaml", config_other_middleware)]
|}.

(** [config0] with middleware micro-ros. *)
Definition config_micro_ros : gmap string value :=
  <["middleware" := VStr "micro-ros"]> config0.

(** [config0] with a run command that ends in a blank. *)
Definition config_spaced : gmap string value :=
  <["container_run_cmd" := VStr "bash "]> config0.

(** What [config_spaced] resolves to for [develop], as strings. *)
Definition env_spaced : dict string :=
  [("REPO_AUTHOR", "Vince-94"); ("PROJECT_REPO", "robot_ws");
   ("LOCAL_WS_PATH", "/home/u/robot_ws");
   ("VOLUMES", "(/data '/opt/my maps')");
   ("CONTAINER_USR", "dev"); ("CONTAINER_PSW", "dev");
   ("CONTAINER_UID", "1000"); ("CONTAINER_GID", "1000");
   ("CONTAINER_HOME", "/home/dev"); ("CONTAINER_WS", "/home/dev/robot_ws");
   ("CONTAINER_RUN_CMD", "bash ");
   ("BASE_IMAGE", "osrf/ros:jazzy-desktop-full");
   ("BUILD_STAGE", "develop-stage");
   ("TARGET_ARCH", "x86_64"); ("SOURCE_ARCH", "x86_64");
   ("DOCKERFILE", "Dockerfile.ros2");
   ("DOCKER_IMAGE", "Vince-94/robot_ws-jazzy");
   ("DOCKER_CONTAINER", "robot_ws-develop-container");
   ("DOCKER_IMAGE_TAG", "develop")].

(** What [config0] resolves to for [develop], as strings. *)
Definition env_develop : dict string :=
  [("REPO_AUTHOR", "Vince-94"); ("PROJECT_REPO", "robot_ws");
   ("LOCAL_WS_PATH", "/home/u/robot_ws");
   ("VOLUMES", "(/data '/opt/my maps')");
   ("CONTAINER_USR", "dev"); ("CONTAINER_PSW", "dev");
   ("CONTAINER_UID", "1000"); ("CONTAINER_GID", "1000");
   ("CONTAINER_HOME", "/home/dev"); ("CONTAINER_WS", "/home/dev/robot_ws");
   ("CONTAINER_RUN_CMD", "bash");
   ("BASE_IMAGE", "osrf/ros:jazzy-desktop-full");
   ("BUILD_STAGE", "develop-stage");
   ("TARGET_ARCH", "x86_64"); ("SOURCE_ARCH", "x86_64");
   ("DOCKERFILE", "Dockerfile.ros2");
   ("DOCKER_IMAGE", "Vince-94/robot_ws-jazzy");
   ("DOCKER_CONTAINER", "robot_ws-develop-container");
   ("DOCKER_IMAGE_TAG", "develop")].

(** ** Vocabulary of the further properties *)

(** The text that [shlex.quote] puts for a single quote. *)
Definition quoted_quote : string :=
  String "'" (String "034" (String "'" (String "034" (String "'" "")))).

(** Not empty and without a blank at either end. *)
Definition trimmed (s : string) : Prop :=
  s ≠ "" ∧ lstrip s = s ∧ rstrip s = s.

Definition resolved_keys : list string :=
  ["REPO_AUTHOR"; "PROJECT_REPO"; "LOCAL_WS_PATH"; "VOLUMES";
   "CONTAINER_USR"; "CONTAINER_PSW"; "CONTAINER_UID"; "CONTAINER_GID";
   "CONTAINER_HOME"; "CONTAINER_WS"; "CONTAINER_RUN_CMD";
   "BASE_IMAGE"; "BUILD_STAGE"; "TARGET_ARCH"; "SOURCE_ARCH";
   "DOCKERFILE"; "DOCKER_IMAGE"; "DOCKER_CONTAINER"; "DOCKER_IMAGE_TAG"].

Definition build_arg (env : dict string) (kv : string * string)
  : list string :=
  ["--build-arg"; kv.1 ++ "=" ++ default "" (get kv.2 env)].

Definition key_error_text (env_key : string) : string :=
  "Required variable " ++ env_key ++ " not found in .env".

(** The command [build] assembles from an environment that binds the
    required variables. *)
Definition docker_build_command (h : host) (root_dir : string)
    (env : dict string) : list string :=
  let var k := default "" (get k env) in
  (["docker"; "build"; "--pull"; "--rm";
    "--build-arg"; "BASE_IMAGE=" +:+ var "BASE_IMAGE";
    "--build-arg"; "CONTAINER_USR=" +:+ var "CONTAINER_USR";
    "--build-arg"; "CONTAINER_PSW=" +:+ var "CONTAINER_PSW";
    "--build-arg"; "CONTAINER_UID=" +:+ var "CONTAINER_UID";
    "--build-arg"; "CONTAINER_GID=" +:+ var "CONTAINER_GID";
    "-f"; joinpath h (joinpath h root_dir "docker") (var "DOCKERFILE");
    "--target"; var "BUILD_STAGE";
    "-t"; var "DOCKER_IMAGE" +:+ ":" +:+ var "DOCKER_IMAGE_TAG"]
   ++ match Build.choose_platform_option (var "TARGET_ARCH")
              (var "SOURCE_ARCH") with
      | Some o => [o]
      | None => []
      end
   ++ [root_dir])%list.

(** The variables [run] reads by subscript before it looks for missing
    ones, in the order it reads them. *)
Definition eager_keys : list string :=
  ["DOCKER_IMAGE"; "DOCKER_IMAGE_TAG"; "CONTAINER_USR"; "CONTAINER_UID";
   "CONTAINER_GID"; "CONTAINER_RUN_CMD"; "CONTAINER_WS"; "DOCKER_CONTAINER"].

(** The other required variables, in the order of [required]. *)
Definition late_keys : list string :=
  ["LOCAL_WS_PATH"; "CONTAINER_HOME"; "VOLUMES"; "TARGET_ARCH"; "SOURCE_ARCH"].

(** The command [run] assembles for a new container, from an environment
    that binds the required variables and the volumes read from
    [VOLUMES]. *)
Definition docker_run_command (environ : gmap string string)
    (env : dict string) (vols : list string) : list RunCommand.arg :=
  let var k := default "" (get k env) in
  let display :=
    default (default "" (environ !! "DISPLAY")) (get "DISPLAY" env) in
  let hostname :=
    default (default "localhost" (environ !! "HOSTNAME"))
      (get "HOSTNAME" env) in
  let main_volume :=
    "-v" ++ var "LOCAL_WS_PATH" ++ ":" ++ var "CONTAINER_WS" ++ ":rw" in
  ((RunCommand.Arg <$>
      ["docker"; "run"; "-it"; "--rm"; "--privileged";
       "--cap-add"; "IPC_LOCK";
       "--ulimit"; "memlock=-1:-1";
       "--device"; "/dev:/dev";
       "--network"; "host";
       "-e"; "LOCAL_USER_ID=" +:+ var "CONTAINER_UID";
       "-e"; "USER=" +:+ var "CONTAINER_USR";
       "-e"; "UID=" +:+ var "CONTAINER_UID";
       "-e"; "GROUPS=" +:+ var "CONTAINER_GID";
       "-e"; "DISPLAY=" +:+ display;
       "-e"; "QT_X11_NO_MITSHM=1";
       "-e"; "XAUTHORITY=/tmp/.docker.xauth";
       "-p"; "14556:14556/udp";
       "-p"; "8888-8890:8888-8890/udp";
       "-v"; "/etc/localtime:/etc/localtime:ro";
       "-v"; "/tmp/.X11-unix:/tmp/.X11-unix";
       "-v"; "/tmp/.docker.xauth:/tmp/.docker.xauth";
       "-v"; "/dev/shm:/dev/shm"])
   ++ (RunCommand.Arg <$>
         main_volume
         :: (RunCommand.extra_volume (var "CONTAINER_HOME") <$> vols))
   ++ [match Run.choose_platform_option (var "TARGET_ARCH")
               (var "SOURCE_ARCH") with
       | Some o => RunCommand.Arg o
       | None => RunCommand.EmptyList
       end]
   ++ (RunCommand.Arg <$>
         ["-h"; hostname; "-w"; var "CONTAINER_WS";
          "--name"; var "DOCKER_CONTAINER";
          var "DOCKER_IMAGE" +:+ ":" +:+ var "DOCKER_IMAGE_TAG";
          var "CONTAINER_RUN_CMD"]))%list.

Definition well_formed (env : dict string) : Prop :=
  NoDup (keys env)
  ∧ Forall (λ kv, key_ok kv.1 = true ∧ value_ok kv.2 = true) env.

(** What config.py removes from a value: double quotes at both ends,
    then single quotes at both ends. *)
Definition unquote (v : string) : string :=
  Config.strip_char "'" (Config.strip_char "034" v).

Definition unquote_values (env : dict string) : dict string :=
  (λ kv, (kv.1, unquote kv.2)) <$> env.

(** No line break other than the line feed. *)
Definition only_line_feeds (s : string) : bool :=
  all_chars (λ c, negb (is_linebreak c) || Ascii.eqb c "010") s.

(** * Properties *)

Local Set Warnings "-clear-no-such-hyp".

(** ** Computations *)

Section Computations.
Context {A B : Type}.
Implicit Types (m : M A) (f : A → M B).

Lemma bind_Ok_inv m f tr b :
  m ≫= f = (tr, Ok b) →
  ∃ tr1 a tr2, m = (tr1, Ok a) ∧ f a = (tr2, Ok b) ∧ tr = (tr1 ++ tr2)%list.
Proof.
  destruct m as [tr1 [a | d | e]]; cbn; [| discriminate ..].
  destruct (f a) as [tr2 r] eqn:E. intros [= <- ->]. by exists tr1, a, tr2.
Qed.

Lemma bind_pure a f : ([], Ok a) ≫= f = f a.
Proof. cbn. by destruct (f a). Qed.

Lemma bind_raise tr e f : (tr, Raise e) ≫= f = (tr, Raise e).
Proof. reflexivity. Qed.

Lemma bind_ext m f (g : A → M B) : (∀ a, f a = g a) → m ≫= f = m ≫= g.
Proof. intros E. destruct m as [tr [a | d | e]]; cbn; [|done ..]. by rewrite E. Qed.

End Computations.

Lemma getitem_Ok d k tr v :
  getitem d k = (tr, Ok v) → d !! k = Some v ∧ tr = [].
Proof. unfold getitem. destruct (d !! k); [by intros [= <- <-] | discriminate]. Qed.

Lemma getitem_Some d k v : d !! k = Some v → getitem d k = ([], Ok v).
Proof. unfold getitem. by intros ->. Qed.

Lemma getitem_None d k : d !! k = None → getitem d k = ([], Raise (KeyError k)).
Proof. unfold getitem. by intros ->. Qed.

Lemma subscript_Ok v k tr w :
  subscript v k = (tr, Ok w) → ∃ d, v = VDict d ∧ d !! k = Some w ∧ tr = [].
Proof.
  destruct v; try discriminate. cbn. intros [? ?]%getitem_Ok. eauto.
Qed.

Lemma as_str_Ok v tr s : as_str v = (tr, Ok s) → v = VStr s ∧ tr = [].
Proof. destruct v; try discriminate. by intros [= <- <-]. Qed.

Lemma as_list_Ok v tr l : as_list v = (tr, Ok l) → v = VList l ∧ tr = [].
Proof. destruct v; try discriminate. by intros [= <- <-]. Qed.

Lemma as_str_list_Ok v tr ss :
  as_str_list v = (tr, Ok ss) → ∃ l, v = VList l ∧ str_items l = Some ss ∧ tr = [].
Proof.
  destruct v as [| |l|]; try discriminate. cbn.
  destruct (str_items l) eqn:E; [|discriminate]. intros [= <- <-]. eauto.
Qed.

(** ** The lookups that open [generate_config] *)

Lemma getitem_insert_ne d k k' v :
  k ≠ k' → getitem (<[k := v]> d) k' = getitem d k'.
Proof. intros. unfold getitem. by rewrite lookup_insert_ne. Qed.

Lemma getitem_insert_eq d k v : getitem (<[k := v]> d) k = ([], Ok v).
Proof. unfold getitem. by rewrite lookup_insert_eq. Qed.

Lemma resolve_strata_target_platorm h config v v' target_arch :
  resolve_strata h (<["target_platorm" := v]> config) target_arch
  = resolve_strata h (<["target_platorm" := v']> config) target_arch.
Proof.
  unfold resolve_strata.
  rewrite !(getitem_insert_ne _ _ "repo_author"),
    !(getitem_insert_ne _ _ "project_repo"), !(getitem_insert_ne _ _ "volumes"),
    !(getitem_insert_ne _ _ "container_env"),
    !(getitem_insert_ne _ _ "ros2_distro"), !(getitem_insert_ne _ _ "middleware"),
    !(getitem_insert_ne _ _ "docker_base_images"),
    !(getitem_insert_ne _ _ "docker_file_image_container"),
    !(getitem_insert_ne _ _ "supported"),
    !(getitem_insert_ne _ _ "container_run_cmd") by done.
  do 6 (apply bind_ext; intros ?).
  by rewrite !getitem_insert_eq, !bind_pure.
Qed.

Lemma missing_target_platorm_raises h config target_arch :
  config !! "target_platorm" = None →
  ∃ k, k ∈ opening_keys ∧
       resolve_strata h config target_arch = ([], Raise (KeyError k)).
Proof.
  intros Hnone. unfold resolve_strata, opening_keys.
  destruct (config !! "repo_author") eqn:E1;
    [rewrite (getitem_Some _ _ _ E1), bind_pure
    |rewrite (getitem_None _ _ E1), bind_raise; eexists; split; [|done]; set_solver].
  destruct (config !! "project_repo") eqn:E2;
    [rewrite (getitem_Some _ _ _ E2), bind_pure
    |rewrite (getitem_None _ _ E2), bind_raise; eexists; split; [|done]; set_solver].
  destruct (config !! "volumes") eqn:E3;
    [rewrite (getitem_Some _ _ _ E3), bind_pure
    |rewrite (getitem_None _ _ E3), bind_raise; eexists; split; [|done]; set_solver].
  destruct (config !! "container_env") eqn:E4;
    [rewrite (getitem_Some _ _ _ E4), bind_pure
    |rewrite (getitem_None _ _ E4), bind_raise; eexists; split; [|done]; set_solver].
  destruct (config !! "ros2_distro") eqn:E5;
    [rewrite (getitem_Some _ _ _ E5), bind_pure
    |rewrite (getitem_None _ _ E5), bind_raise; eexists; split; [|done]; set_solver].
  destruct (config !! "middleware") eqn:E6;
    [rewrite (getitem_Some _ _ _ E6), bind_pure
    |rewrite (getitem_None _ _ E6), bind_raise; eexists; split; [|done]; set_solver].
  rewrite (getitem_None _ _ Hnone), bind_raise. eexists; split; [|done]. set_solver.
Qed.

(** ** Inversion of a resolution that returned *)

Lemma format_Ok v tr s :
  format v = (tr, Ok s) →
  tr = [] ∧ (v = VStr s ∨ ∃ z, v = VInt z ∧ s = pretty z).
Proof. destruct v; try discriminate; intros [= <- <-]; eauto. Qed.

Lemma probe_dir_Ok h p tr b :
  probe_dir h p = (tr, Ok b) → tr = [Probe_is_dir p] ∧ b = is_dir h p.
Proof. by intros [= <- <-]. Qed.

Lemma probe_file_Ok h p tr b :
  probe_file h p = (tr, Ok b) → tr = [Probe_is_file p] ∧ b = is_file h p.
Proof. by intros [= <- <-]. Qed.

Lemma mret_Ok {A} (a b : A) tr : (mret a : M A) = (tr, Ok b) → tr = [] ∧ a = b.
Proof. by intros [= <- <-]. Qed.

Ltac inv_prim H :=
  lazymatch type of H with
  | getitem _ _ = (_, Ok _) => apply getitem_Ok in H as [H ?]
  | subscript _ _ = (_, Ok _) => apply subscript_Ok in H as (? & ? & H & ?)
  | as_str _ = (_, Ok _) => apply as_str_Ok in H as [? ?]
  | as_list _ = (_, Ok _) => apply as_list_Ok in H as [? ?]
  | as_str_list _ = (_, Ok _) => apply as_str_list_Ok in H as (? & ? & H & ?)
  | format _ = (_, Ok _) => apply format_Ok in H as [? H]
  | probe_dir _ _ = (_, Ok _) => apply probe_dir_Ok in H as [? H]
  | probe_file _ _ = (_, Ok _) => apply probe_file_Ok in H as [? H]
  | _ => idtac
  end; simplify_eq.

Ltac inv_ok H :=
  lazymatch type of H with
  | mbind _ _ = (_, Ok _) =>
      let E := fresh "E" in
      apply bind_Ok_inv in H as (? & ? & ? & E & H & ->);
      inv_prim E; cbn beta in H; inv_ok H
  | (if negb ?b then _ else _) = (_, Ok _) =>
      let Eb := fresh "Eb" in
      destruct b eqn:Eb; cbn [negb] in H; [inv_ok H | discriminate H]
  | (let '(_, _) := ?x in _) = (_, Ok _) => destruct x; inv_ok H
  | mret _ = (_, Ok _) => apply mret_Ok in H as [? H]; simplify_eq
  | _ => idtac
  end.

Lemma subscript_trace v k tr r : subscript v k = (tr, r) → tr = [].
Proof.
  destruct v; try by intros [= <- _].
  cbn. unfold getitem. by destruct (_ !! _); intros [= <- _].
Qed.

Lemma base_image_branch_Ok dbi archs mw t tr row :
  base_image_branch dbi archs mw t = (tr, Ok row) →
  tr = [] ∧ branch_row dbi mw t row.
Proof.
  unfold base_image_branch. intros H.
  repeat case_bool_decide; try discriminate;
    apply bind_Ok_inv in H as (tr1 & bi & ? & E & H & ->);
    pose proof (subscript_trace _ _ _ _ E) as ->;
    try discriminate;
    apply mret_Ok in H as [-> <-]; (split; [done|]).
  all: first [ by apply Row_ros2_develop | by apply Row_ros2_deploy
             | apply Row_micro_ros_develop; [done | set_solver | done]
             | apply Row_micro_ros_deploy; [done | set_solver | done] ].
Qed.

(** ** Running a computation forward *)

Lemma run_bind {A B} (m : M A) (f : A → M B) tr1 a tr2 r :
  m = (tr1, Ok a) → f a = (tr2, r) → m ≫= f = ((tr1 ++ tr2)%list, r).
Proof. intros -> E. cbn. by rewrite E. Qed.

Lemma as_str_list_Some l ss :
  str_items l = Some ss → as_str_list (VList l) = ([], Ok ss).
Proof. cbn. by intros ->. Qed.

Lemma str_items_Some l ss : str_items l = Some ss ↔ l = VStr <$> ss.
Proof.
  revert ss. induction l as [|v l IH]; intros ss; cbn.
  - split; [by intros [= <-] | by destruct ss].
  - destruct v; try (split; [done | by destruct ss]).
    destruct (str_items l) as [ss'|]; cbn.
    + split.
      * intros [= <-]. cbn. f_equal. by apply IH.
      * destruct ss as [|s0 ss0]; [done|]. intros [= -> E]. do 2 f_equal.
        apply IH in E. by simplify_eq.
    + split; [done|]. destruct ss as [|s0 ss0]; [done|]. intros [= -> E].
      by apply IH in E.
Qed.

Ltac run_prim :=
  first
    [ apply getitem_Some; eassumption
    | apply as_str_list_Some; eassumption
    | eassumption
    | reflexivity ].

Ltac run_test :=
  match goal with
  | H : bool_decide ?P = _ |- context [bool_decide ?P] => rewrite H; cbn [negb]
  | H : is_dir ?h ?p = _ |- context [is_dir ?h ?p] => rewrite H; cbn [negb]
  | H : is_file ?h ?p = _ |- context [is_file ?h ?p] => rewrite H; cbn [negb]
  | H : ?P |- context [bool_decide ?P] =>
      rewrite (bool_decide_true P H); cbn [negb]
  | H : ¬ ?P |- context [bool_decide ?P] =>
      rewrite (bool_decide_false P H); cbn [negb]
  end.

Lemma run_fail {A B} (m : M A) (f : A → M B) tr d :
  m = (tr, Fail d) → m ≫= f = (tr, Fail d).
Proof. by intros ->. Qed.

Lemma run_raise {A B} (m : M A) (f : A → M B) tr e :
  m = (tr, Raise e) → m ≫= f = (tr, Raise e).
Proof. by intros ->. Qed.

Ltac run_steps :=
  repeat first
    [ eapply run_bind; [run_prim | cbn beta iota]
    | eapply run_raise; apply getitem_None; eassumption
    | eapply run_fail; eassumption
    | run_test ];
  try reflexivity.

Ltac run := etrans; [run_steps | cbn [app]; rewrite ?app_nil_r; try done].

(** ** The loop over the volumes *)

Lemma check_volumes_Ok h l tr vs :
  check_volumes h l = (tr, Ok vs) ↔
  l = VStr <$> vs ∧ Forall (λ v, is_dir h v = true) vs
  ∧ tr = Probe_is_dir <$> vs.
Proof.
  revert tr vs. induction l as [|v l IH]; intros tr vs; cbn [check_volumes].
  - split.
    + by intros [= <- <-].
    + intros (E & _ & ->). by destruct vs.
  - split.
    + intros H. inv_ok H.
      match goal with E : check_volumes _ _ = _ |- _ =>
        apply IH in E as (-> & ? & ->) end.
      split_and!; [done | by constructor | cbn; by rewrite app_nil_r].
    + destruct vs as [|v0 vs0]; intros (E & Hd & ->); [done|].
      cbn in E. injection E as -> ->. apply Forall_cons in Hd as [Hd1 Hd2].
      assert (check_volumes h (VStr <$> vs0)
              = (Probe_is_dir <$> vs0, Ok vs0)) as Hrest by (by apply IH).
      run.
Qed.

(** ** When a resolution returns, and what *)

Lemma branch_row_run dbi archs mw t row :
  branch_row dbi mw t row → base_image_branch dbi archs mw t = ([], Ok row).
Proof.
  unfold base_image_branch.
  destruct 1 as [bi -> Ht E | bi -> Ht E | bi -> -> E | bi -> -> E].
  - rewrite bool_decide_true, (bool_decide_true _ Ht) by done. by rewrite E.
  - rewrite bool_decide_true by done.
    case_bool_decide; [exfalso; set_solver|].
    by rewrite (bool_decide_true _ Ht), E.
  - by rewrite E.
  - by rewrite E.
Qed.

Lemma resolve_strata_Ok_iff h config t tr s :
  resolve_strata h config t = (tr, Ok s) ↔ resolved h config t tr s.
Proof.
  split.
  - intros H. unfold resolve_strata in H. inv_ok H.
    repeat match goal with
           | E : str_items _ = Some _ |- _ => apply str_items_Some in E as ->
           | E : check_volumes _ _ = _ |- _ =>
               apply check_volumes_Ok in E as (-> & ? & ->)
           | E : base_image_branch _ _ _ _ = _ |- _ =>
               apply base_image_branch_Ok in E as [-> ?]
           | E : bool_decide _ = true |- _ => apply bool_decide_eq_true_1 in E
           end.
    cbn [app].
    eapply Resolved; eauto.
    match goal with
    | E : _ ∨ _ |- _ => destruct E as [-> | (? & -> & ->)]; done
    end.
  - destruct 1.
    repeat match goal with
           | H : _ ∈ _ |- _ => apply (bool_decide_eq_true_2 _) in H
           end.
    match goal with
    | H : branch_row _ _ _ _ |- _ => apply (branch_row_run _ archs) in H
    end.
    match goal with
    | H : Forall _ _ |- _ =>
        assert (check_volumes h (VStr <$> volumes)
                = (Probe_is_dir <$> volumes, Ok volumes))
          by (by apply check_volumes_Ok)
    end.
    assert (∀ l, str_items (VStr <$> l) = Some l) as Hitems
      by (intros l; by apply str_items_Some).
    pose proof (Hitems archs). pose proof (Hitems mws).
    pose proof (Hitems distros).
    unfold resolve_strata, repo_path, dockerfile_path in *. run.
Qed.

Lemma generate_config_Ok_iff h config t tr env :
  generate_config h config t = (tr, Ok env) ↔
  ∃ s, resolved h config t tr s ∧ env = merge s.
Proof.
  unfold generate_config. split.
  - intros (tr1 & s & ? & H & [-> <-]%mret_Ok & ->)%bind_Ok_inv.
    rewrite app_nil_r. exists s. by rewrite <- resolve_strata_Ok_iff.
  - intros (s & H%resolve_strata_Ok_iff & ->). rewrite H. cbn.
    by rewrite app_nil_r.
Qed.

(** ** Dictionaries *)

Section DictFacts.
Context {V : Type}.
Implicit Types (d : dict V) (k : string) (v : V).

Lemma get_None d k : get k d = None ↔ k ∉ keys d.
Proof.
  induction d as [|[k' v'] d IH]; cbn.
  - split; [set_solver | done].
  - case_decide as E.
    + split; [done | set_solver].
    + rewrite IH. set_solver.
Qed.

Lemma get_Some_key d k v : get k d = Some v → k ∈ keys d.
Proof.
  intros E. destruct (decide (k ∈ keys d)) as [|N]; [done|].
  apply get_None in N. congruence.
Qed.

Lemma get_app d1 d2 k :
  get k (d1 ++ d2)%list = match get k d1 with
                          | Some v => Some v
                          | None => get k d2
                          end.
Proof.
  induction d1 as [|[k' v'] d1 IH]; cbn; [done|]. by case_decide.
Qed.

Lemma set_fresh d k v : k ∉ keys d → set k v d = (d ++ [(k, v)])%list.
Proof.
  induction d as [|[k' v'] d IH]; cbn; [done|]. intros N.
  rewrite decide_False by set_solver. f_equal. apply IH. set_solver.
Qed.

(** The union of dictionaries that share no key is their concatenation. *)
Lemma union_disjoint d1 d2 :
  NoDup (keys d2) → keys d1 ## keys d2 → union d1 d2 = (d1 ++ d2)%list.
Proof.
  unfold union. revert d1. induction d2 as [|[k v] d2 IH]; intros d1 Hnd Hdis.
  - by rewrite app_nil_r.
  - cbn in *. apply NoDup_cons in Hnd as [Hk Hnd].
    rewrite set_fresh by set_solver. rewrite IH; [by rewrite <- app_assoc | done |].
    unfold keys in *. rewrite fmap_app. cbn. set_solver.
Qed.

(** In a concatenation without a repeated key, each part keeps its
    bindings. *)
Lemma get_part d1 d d2 k v :
  NoDup (keys (d1 ++ d ++ d2)%list) →
  get k d = Some v → get k (d1 ++ d ++ d2)%list = Some v.
Proof.
  intros Hnd E. rewrite !get_app, E.
  assert (get k d1 = None) as ->; [|done].
  apply get_None. intros Hk. apply get_Some_key in E.
  unfold keys in *. rewrite !fmap_app in Hnd.
  apply NoDup_app in Hnd as (_ & Hnd & _). apply (Hnd k Hk). set_solver.
Qed.

End DictFacts.

(** ** Scenarios of the ros2 middleware *)

(** C1. With middleware [ros2], a resolution for target [develop] that
    returns an environment binds BUILD_STAGE to [develop-stage],
    DOCKER_IMAGE_TAG to [develop] and TARGET_ARCH to [x86_64]; for target
    [deploy] it binds them to [deploy-stage], [deploy] and [arm]. *)
Theorem ros2_alias_resolution h config :
  config !! "middleware" = Some (VStr "ros2") →
  (∀ tr env, generate_config h config "develop" = (tr, Ok env) →
     get "BUILD_STAGE" env = Some (VStr "develop-stage")
     ∧ get "DOCKER_IMAGE_TAG" env = Some (VStr "develop")
     ∧ get "TARGET_ARCH" env = Some (VStr "x86_64"))
  ∧ (∀ tr env, generate_config h config "deploy" = (tr, Ok env) →
     get "BUILD_STAGE" env = Some (VStr "deploy-stage")
     ∧ get "DOCKER_IMAGE_TAG" env = Some (VStr "deploy")
     ∧ get "TARGET_ARCH" env = Some (VStr "arm")).
Proof.
  intros Hmw.
  split; intros tr env (s & [] & ->)%generate_config_Ok_iff; simplify_eq.
  all: match goal with R : branch_row _ _ _ _ |- _ => inversion R end.
  all: simplify_eq; try done.
  all: exfalso; match goal with H : _ ∈ _ |- _ => clear -H; set_solver end.
Qed.

Lemma ros2_alias_resolution_witness :
  config0 !! "middleware" = Some (VStr "ros2")
  ∧ (∃ tr env, generate_config host0 config0 "develop" = (tr, Ok env)
       ∧ get "BUILD_STAGE" env = Some (VStr "develop-stage")
       ∧ get "DOCKER_IMAGE_TAG" env = Some (VStr "develop")
       ∧ get "TARGET_ARCH" env = Some (VStr "x86_64"))
  ∧ (∃ tr env, generate_config host0 config0 "deploy" = (tr, Ok env)
       ∧ get "BUILD_STAGE" env = Some (VStr "deploy-stage")
       ∧ get "DOCKER_IMAGE_TAG" env = Some (VStr "deploy")
       ∧ get "TARGET_ARCH" env = Some (VStr "arm")).
Proof.
  assert (config0 !! "middleware" = Some (VStr "ros2")) as Hmw
    by (vm_compute; reflexivity).
  destruct (ros2_alias_resolution host0 config0 Hmw) as [Hdev Hdep].
  split; [exact Hmw|]. split.
  - destruct (generate_config host0 config0 "develop") as [tr r] eqn:E.
    vm_compute in E. injection E as <- <-.
    eexists _, _. split; [reflexivity|]. eapply Hdev. vm_compute; reflexivity.
  - destruct (generate_config host0 config0 "deploy") as [tr r] eqn:E.
    vm_compute in E. injection E as <- <-.
    eexists _, _. split; [reflexivity|]. eapply Hdep. vm_compute; reflexivity.
Defined.

(** ** The final merge *)

Lemma elem_of_concat {A} (x : A) (l : list (list A)) :
  x ∈ concat l ↔ ∃ y, y ∈ l ∧ x ∈ y.
Proof.
  induction l as [|y l IH]; cbn.
  - split; [set_solver | by intros (? & ?%elem_of_nil & _)].
  - rewrite elem_of_app, IH. split.
    + intros [? | (z & ? & ?)]; [exists y | exists z]; set_solver.
    + intros (z & [-> | ?]%elem_of_cons & ?); eauto.
Qed.

Lemma keys_concat {V} (l : list (dict V)) :
  keys (concat l) = concat (keys <$> l).
Proof.
  unfold keys. induction l as [|y l IH]; cbn; [done|].
  by rewrite fmap_app, IH.
Qed.

Lemma NoDup_concat_disjoint (l : list (list string)) :
  NoDup (concat l) → pairwise_disjoint l.
Proof.
  induction l as [|x l IH]; intros Hnd i j a b Hij Hi Hj; [done|].
  cbn in Hnd. apply NoDup_app in Hnd as (_ & Hx & Hl).
  destruct i as [|i], j as [|j]; simplify_eq/=.
  - intros k Ha Hb. apply (Hx k Ha). apply elem_of_concat.
    exists b. split; [|done]. by eapply list_elem_of_lookup_2.
  - intros k Ha Hb. apply (Hx k Hb). apply elem_of_concat.
    exists a. split; [|done]. by eapply list_elem_of_lookup_2.
  - eapply (IH Hl i j); eauto.
Qed.

(** C6. The five partial mappings a resolution builds have pairwise
    disjoint key sets; the merged environment is their concatenation in
    merge order, so no later stratum overwrites a key of an earlier one
    and every binding of every stratum is the binding of the result. *)
Theorem merge_never_overwrites h config t tr s :
  resolve_strata h config t = (tr, Ok s) →
  pairwise_disjoint (keys <$> strata_list s)
  ∧ generate_config h config t = (tr, Ok (merge s))
  ∧ merge s = concat (strata_list s)
  ∧ ∀ d k v, d ∈ strata_list s → get k d = Some v → get k (merge s) = Some v.
Proof.
  intros H.
  assert (generate_config h config t = (tr, Ok (merge s))) as Hgen.
  { unfold generate_config. rewrite H. cbn. by rewrite app_nil_r. }
  apply resolve_strata_Ok_iff in H. destruct H.
  match goal with
  | |- context [merge ?x] => set (s := x) in *
  end.
  assert (merge s = concat (strata_list s)) as Hm by reflexivity.
  assert (NoDup (keys (concat (strata_list s)))) as Hnd.
  { apply (bool_decide_unpack _). by vm_compute. }
  split_and!; [| done | done |].
  - apply NoDup_concat_disjoint. by rewrite <- keys_concat.
  - intros d k v Hd Hg. rewrite Hm. revert Hnd. cbn [strata_list concat].
    rewrite app_nil_r.
    unfold strata_list in Hd.
    rewrite !elem_of_cons, elem_of_nil in Hd.
    destruct Hd as [-> | [-> | [-> | [-> | [-> | []]]]]]; intros Hnd.
    + apply (get_part [] _ _); [exact Hnd | done].
    + apply (get_part (repo_env s) _ _); [exact Hnd | done].
    + rewrite !(assoc_L app _ _ (container_env s ++ _)%list) in *.
      apply (get_part _ _ _); [exact Hnd | done].
    + rewrite (assoc_L app _ _ (container_env s ++ _)%list),
        (assoc_L app _ _ (base_image_env s ++ _)%list) in *.
      apply (get_part _ _ _); [exact Hnd | done].
    + rewrite <- (app_nil_r (image_env s)) in *.
      rewrite (assoc_L app _ _ (container_env s ++ _)%list),
        (assoc_L app _ _ (base_image_env s ++ _)%list),
        (assoc_L app _ _ (image_env s ++ _)%list) in *.
      apply (get_part _ _ _); [exact Hnd | done].
Qed.

Lemma merge_never_overwrites_witness :
  ∃ tr s,
    resolve_strata host0 config0 "deploy" = (tr, Ok s)
    ∧ keys (base_image_env s)
      = ["BASE_IMAGE"; "BUILD_STAGE"; "TARGET_ARCH"; "SOURCE_ARCH"]
    ∧ get "TARGET_ARCH" (merge s) = Some (VStr "arm")
    ∧ pairwise_disjoint (keys <$> strata_list s).
Proof.
  destruct (resolve_strata host0 config0 "deploy") as [tr r] eqn:E.
  vm_compute in E. injection E as <- <-.
  eexists _, _. split; [reflexivity|].
  split; [vm_compute; reflexivity|].
  split; [vm_compute; reflexivity|].
  eapply (merge_never_overwrites host0 config0 "deploy").
  vm_compute. reflexivity.
Defined.

(** ** Literal replacement *)

Lemma prefix_append (p s : string) : String.prefix p (p ++ s) = true.
Proof.
  induction p as [|c p IH]; [by destruct s|].
  change (String c p ++ s) with (String c (p ++ s)). cbn [String.prefix].
  destruct (ascii_dec c c); [done | congruence].
Qed.

Lemma replace_go_skip old new (x b : string) :
  replace_go old new (x ++ b) (String.length x) = replace_go old new b 0.
Proof.
  induction x as [|c x IH]; [done|].
  change (String c x ++ b) with (String c (x ++ b)). apply IH.
Qed.

(** The three equations of a left-to-right scan. *)
Lemma replace_empty old new : old ≠ "" → replace old new "" = "".
Proof. by destruct old. Qed.

Lemma replace_match old new b :
  old ≠ "" → replace old new (old ++ b) = new ++ replace old new b.
Proof.
  destruct old as [|c o]; [done|]. intros _. unfold replace.
  pose proof (prefix_append (String c o) b) as Hp.
  change (String c o ++ b) with (String c (o ++ b)) in *.
  cbn [replace_go]. rewrite Hp.
  f_equal. replace (String.length (String c o) - 1) with (String.length o)
    by (cbn; lia).
  apply replace_go_skip.
Qed.

Lemma replace_skip old new c s :
  old ≠ "" → String.prefix old (String c s) = false →
  replace old new (String c s) = String c (replace old new s).
Proof.
  destruct old as [|c0 o]; [done|]. intros _ E. unfold replace.
  cbn [replace_go]. by rewrite E.
Qed.

(** A template in which the token does not occur is left as it is. *)
Lemma replace_absent old new s :
  old ≠ "" → occurs old s = false → replace old new s = s.
Proof.
  intros Hold. induction s as [|c s IH]; intros E.
  - by apply replace_empty.
  - cbn [occurs] in E. apply orb_false_iff in E as [E1 E2].
    rewrite replace_skip by done. by rewrite IH.
Qed.

(** ** Template substitution *)

(** C5, as stated, fails: an image-name template that carries the token
    TAG resolves without a failure and the token is in DOCKER_IMAGE. *)
Lemma unresolved_placeholder_passes :
  generate_config host0 config_tagged_image "develop"
  = ([Probe_is_dir "/home/u/robot_ws"; Probe_is_dir "/data";
      Probe_is_dir "/opt/my maps";
      Probe_is_file "/home/u/rc/docker/Dockerfile.ros2"],
     Ok [("REPO_AUTHOR", VStr "Vince-94"); ("PROJECT_REPO", VStr "robot_ws");
         ("LOCAL_WS_PATH", VStr "/home/u/robot_ws");
         ("VOLUMES", VStr "(/data '/opt/my maps')");
         ("CONTAINER_USR", VStr "dev"); ("CONTAINER_PSW", VStr "dev");
         ("CONTAINER_UID", VStr "1000"); ("CONTAINER_GID", VStr "1000");
         ("CONTAINER_HOME", VStr "/home/dev");
         ("CONTAINER_WS", VStr "/home/dev/robot_ws");
         ("CONTAINER_RUN_CMD", VStr "bash");
         ("BASE_IMAGE", VStr "osrf/ros:jazzy-desktop-full");
         ("BUILD_STAGE", VStr "develop-stage");
         ("TARGET_ARCH", VStr "x86_64"); ("SOURCE_ARCH", VStr "x86_64");
         ("DOCKERFILE", VStr "Dockerfile.ros2");
         ("DOCKER_IMAGE", VStr "Vince-94/robot_ws:TAG");
         ("DOCKER_CONTAINER", VStr "robot_ws-develop-container");
         ("DOCKER_IMAGE_TAG", VStr "develop")])
  ∧ ¬ unresolved_placeholder_fails host0 config_tagged_image "develop".
Proof.
  assert (generate_config host0 config_tagged_image "develop" = _) as E
    by (vm_compute; reflexivity).
  split; [exact E|]. intros Hclaim. apply (Hclaim _ _ E).
  exists "DOCKER_IMAGE", "Vince-94/robot_ws:TAG", "TAG".
  split_and!; [ | vm_compute; reflexivity | | vm_compute; reflexivity];
    apply (bool_decide_unpack _); vm_compute; exact I.
Qed.

(** C5, amended. A resolution that returns has replaced, from the left
    and without overlap, ROS2_DISTRO in the chosen base-image template,
    MIDDLEWARE in the dockerfile template, REPO_AUTHOR, PROJECT_REPO and
    ROS2_DISTRO in that order in the image template, and PROJECT_REPO
    then TAG in the container template.  Nothing else is replaced and
    nothing is checked afterwards: a template without the tokens that are
    replaced in it is the generated name, whatever else it contains. *)
Theorem template_substitution h config t tr env :
  generate_config h config t = (tr, Ok env) →
  ∃ repo_author project_repo ros2_distro middleware tag
    dbi dfic image_key base_image dockerfile docker_image docker_container,
    config !! "repo_author" = Some (VStr repo_author)
    ∧ config !! "project_repo" = Some (VStr project_repo)
    ∧ config !! "ros2_distro" = Some (VStr ros2_distro)
    ∧ config !! "middleware" = Some (VStr middleware)
    ∧ config !! "docker_base_images" = Some (VDict dbi)
    ∧ image_key ∈ ["x86_full_image"; "arm_base_image"; "microros_base_image"]
    ∧ dbi !! image_key = Some (VStr base_image)
    ∧ config !! "docker_file_image_container" = Some (VDict dfic)
    ∧ dfic !! "dockerfile" = Some (VStr dockerfile)
    ∧ dfic !! "docker_image" = Some (VStr docker_image)
    ∧ dfic !! "docker_container" = Some (VStr docker_container)
    ∧ get "DOCKER_IMAGE_TAG" env = Some (VStr tag)
    ∧ get "BASE_IMAGE" env
      = Some (VStr (replace "ROS2_DISTRO" ros2_distro base_image))
    ∧ get "DOCKERFILE" env
      = Some (VStr (replace "MIDDLEWARE" middleware dockerfile))
    ∧ get "DOCKER_IMAGE" env
      = Some (VStr (replace "ROS2_DISTRO" ros2_distro
                      (replace "PROJECT_REPO" project_repo
                         (replace "REPO_AUTHOR" repo_author docker_image))))
    ∧ get "DOCKER_CONTAINER" env
      = Some (VStr (replace "TAG" tag
                      (replace "PROJECT_REPO" project_repo docker_container)))
    ∧ (occurs "ROS2_DISTRO" base_image = false →
       get "BASE_IMAGE" env = Some (VStr base_image))
    ∧ (occurs "MIDDLEWARE" dockerfile = false →
       get "DOCKERFILE" env = Some (VStr dockerfile))
    ∧ (occurs "REPO_AUTHOR" docker_image = false →
       occurs "PROJECT_REPO" docker_image = false →
       occurs "ROS2_DISTRO" docker_image = false →
       get "DOCKER_IMAGE" env = Some (VStr docker_image))
    ∧ (occurs "PROJECT_REPO" docker_container = false →
       occurs "TAG" docker_container = false →
       get "DOCKER_CONTAINER" env = Some (VStr docker_container)).
Proof.
  intros (s & [] & ->)%generate_config_Ok_iff.
  assert (∃ dbi' image_key,
             dbi = VDict dbi'
             ∧ image_key ∈ ["x86_full_image"; "arm_base_image";
                            "microros_base_image"]
             ∧ dbi' !! image_key = Some (VStr base_image))
    as (dbi' & image_key & -> & Hkey & Himg).
  { match goal with R : branch_row _ _ _ _ |- _ => inversion R end;
      simplify_eq;
      match goal with
      | E : subscript _ _ = _ |- _ =>
          apply subscript_Ok in E as (d' & -> & Hd & _)
      end;
      eexists _, _; (split; [done|]); (split; [|exact Hd]); set_solver. }
  exists repo_author, project_repo, ros2_distro, middleware, tag,
    dbi', dfic, image_key, base_image, dockerfile, docker_image,
    docker_container.
  split_and!; try done.
  - intros E. by rewrite (replace_absent "ROS2_DISTRO" _ base_image).
  - intros E. by rewrite (replace_absent "MIDDLEWARE" _ dockerfile).
  - intros E1 E2 E3.
    by rewrite (replace_absent "REPO_AUTHOR" _ docker_image),
      (replace_absent "PROJECT_REPO" _ docker_image),
      (replace_absent "ROS2_DISTRO" _ docker_image).
  - intros E1 E2.
    by rewrite (replace_absent "PROJECT_REPO" _ docker_container),
      (replace_absent "TAG" _ docker_container).
Qed.

Lemma template_substitution_witness :
  ∃ tr env,
    generate_config host0 config_tagged_image "develop" = (tr, Ok env)
    ∧ get "DOCKER_IMAGE" env = Some (VStr "Vince-94/robot_ws:TAG")
    ∧ get "DOCKER_CONTAINER" env = Some (VStr "robot_ws-develop-container").
Proof.
  destruct (generate_config host0 config_tagged_image "develop")
    as [tr r] eqn:E.
  vm_compute in E. injection E as <- <-.
  eexists _, _. split; [reflexivity|].
  destruct (template_substitution host0 config_tagged_image "develop" _ _
              ltac:(vm_compute; reflexivity))
    as (ra & pr & rd & mw & tag & dbi & dfic & ik & bi & df & di & dc & H).
  split; vm_compute; reflexivity.
Defined.

Lemma generate_config_Fail h config t tr d :
  resolve_strata h config t = (tr, Fail d) →
  generate_config h config t = (tr, Fail d).
Proof. unfold generate_config. by intros ->. Qed.

Lemma generate_config_Raise h config t tr e :
  resolve_strata h config t = (tr, Raise e) →
  generate_config h config t = (tr, Raise e).
Proof. unfold generate_config. by intros ->. Qed.

(** ** The unused key *)

Lemma main_Raise h config t tr e :
  yaml_documents h !! SOURCE_FILEPATH h = Some config →
  generate_config h config t = (tr, Raise e) →
  main h t = {| store := h; printed := []; raised := Some e |}.
Proof.
  intros Hy E. unfold main, load_yaml_config. rewrite Hy.
  cbn -[generate_config]. by rewrite E.
Qed.

(** C10. A configuration without the key [target_platorm] makes the
    resolution raise [KeyError] while it reads its opening keys, before
    any check, probe or diagnostic, and [main] lets the exception out;
    when the six keys read before it are bound, the error names
    [target_platorm].  The value bound to the key has no effect on the
    resolution, and the key is not one of the required fields the
    specification lists. *)
Theorem missing_target_platorm h config t :
  config !! "target_platorm" = None →
  (∃ k, k ∈ opening_keys
        ∧ generate_config h config t = ([], Raise (KeyError k))
        ∧ (yaml_documents h !! SOURCE_FILEPATH h = Some config →
           main h t
           = {| store := h; printed := []; raised := Some (KeyError k) |}))
  ∧ ((∀ k, k ∈ opening_keys → k ≠ "target_platorm" → is_Some (config !! k)) →
     generate_config h config t = ([], Raise (KeyError "target_platorm")))
  ∧ (∀ v v',
       generate_config h (<["target_platorm" := v]> config) t
       = generate_config h (<["target_platorm" := v']> config) t)
  ∧ "target_platorm" ∉ spec_required_fields.
Proof.
  intros Hnone. split_and!.
  - destruct (missing_target_platorm_raises h config t Hnone) as (k & ? & E).
    apply generate_config_Raise in E.
    exists k. split_and!; [done | done |]. intros Hy.
    by apply (main_Raise _ _ _ _ _ Hy E).
  - intros Hkeys. apply generate_config_Raise.
    assert (∀ k, bool_decide (k ∈ opening_keys) = true →
                 bool_decide (k ≠ "target_platorm") = true →
                 is_Some (config !! k)) as Hk.
    { intros k ?%bool_decide_eq_true_1 ?%bool_decide_eq_true_1. eauto. }
    destruct (Hk "repo_author") as [? ?]; [done ..|].
    destruct (Hk "project_repo") as [? ?]; [done ..|].
    destruct (Hk "volumes") as [? ?]; [done ..|].
    destruct (Hk "container_env") as [? ?]; [done ..|].
    destruct (Hk "ros2_distro") as [? ?]; [done ..|].
    destruct (Hk "middleware") as [? ?]; [done ..|].
    clear Hk Hkeys. unfold resolve_strata. run.
  - intros v v'. unfold generate_config.
    by rewrite (resolve_strata_target_platorm h config v v').
  - unfold spec_required_fields. apply (bool_decide_eq_false_1 _). done.
Qed.

Lemma missing_target_platorm_witness :
  config_without_target_platorm !! "target_platorm" = None
  ∧ generate_config host0 config_without_target_platorm "develop"
    = ([], Raise (KeyError "target_platorm")).
Proof.
  assert (config_without_target_platorm !! "target_platorm" = None) as Hnone
    by (vm_compute; reflexivity).
  split; [exact Hnone|].
  destruct (missing_target_platorm host0 config_without_target_platorm
              "develop" Hnone) as (_ & Hraise & _).
  apply Hraise. intros k Hk Hne.
  unfold opening_keys in Hk. rewrite !elem_of_cons, elem_of_nil in Hk.
  destruct Hk as [-> | [-> | [-> | [-> | [-> | [-> | [-> | []]]]]]]];
    try (vm_compute; eexists; reflexivity).
  by destruct Hne.
Defined.

(** ** Validation *)

Lemma supported_set_Some config name l :
  supported_set config name = Some l →
  ∃ d raw, config !! "supported" = Some (VDict d)
           ∧ d !! name = Some (VList raw) ∧ str_items raw = Some l.
Proof.
  unfold supported_set. intros H.
  destruct (config !! "supported") as [[| | |d]|] eqn:E1; try discriminate.
  destruct (d !! name) as [[| |raw|]|] eqn:E2; try discriminate.
  by exists d, raw.
Qed.

Lemma has_fields_lookup config k :
  has_fields config → bool_decide (k ∈ header_keys) = true →
  ∃ v, config !! k = Some v.
Proof.
  intros Hf ?%bool_decide_eq_true_1. unfold has_fields in Hf.
  rewrite Forall_forall in Hf. by apply Hf.
Qed.

Ltac header Hf :=
  let go k := destruct (has_fields_lookup _ k Hf) as [? ?]; [done|] in
  go "repo_author"; go "project_repo"; go "volumes"; go "container_env";
  go "ros2_distro"; go "middleware"; go "target_platorm";
  go "docker_base_images"; go "docker_file_image_container".

Ltac declared :=
  repeat match goal with
         | H : supported_set _ _ = Some _ |- _ =>
             apply supported_set_Some in H as (? & ? & ? & ? & ?)
         end;
  simplify_eq.

Lemma check_volumes_Fail h pre v post :
  Forall (λ v, is_dir h v = true) pre → is_dir h v = false →
  check_volumes h (VStr <$> (pre ++ v :: post)%list)
  = (Probe_is_dir <$> (pre ++ [v])%list, Fail (MissingPath v)).
Proof.
  intros Hpre Hv. induction Hpre as [|x pre Hx Hpre IH]; cbn [check_volumes app fmap list_fmap].
  - run.
  - run.
Qed.

Lemma validate_architecture h config t archs :
  has_fields config →
  supported_set config "architectures" = Some archs →
  t ∉ archs →
  resolve_strata h config t = ([], Fail (UnsupportedArchitecture t archs)).
Proof.
  intros Hfields ? ?. header Hfields. declared. unfold resolve_strata. run.
Qed.

Lemma validate_middleware h config t archs mws mw :
  has_fields config →
  supported_set config "architectures" = Some archs →
  supported_set config "middlewares" = Some mws →
  config !! "middleware" = Some (VStr mw) →
  t ∈ archs → mw ∉ mws →
  resolve_strata h config t = ([], Fail (UnsupportedMiddleware mw mws)).
Proof.
  intros Hfields ? ? ? ? ?. header Hfields. declared.
  unfold resolve_strata. run.
Qed.

Lemma validate_distribution h config t archs mws distros mw distro :
  has_fields config →
  supported_set config "architectures" = Some archs →
  supported_set config "middlewares" = Some mws →
  supported_set config "ros2_distros" = Some distros →
  config !! "middleware" = Some (VStr mw) →
  config !! "ros2_distro" = Some (VStr distro) →
  t ∈ archs → mw ∈ mws → distro ∉ distros →
  resolve_strata h config t
  = ([], Fail (UnsupportedDistribution distro distros)).
Proof.
  intros Hfields ? ? ? ? ? ? ? ?. header Hfields. declared.
  unfold resolve_strata. run.
Qed.

Lemma validate_repo_path h config t archs mws distros mw distro project_repo :
  has_fields config →
  supported_set config "architectures" = Some archs →
  supported_set config "middlewares" = Some mws →
  supported_set config "ros2_distros" = Some distros →
  config !! "middleware" = Some (VStr mw) →
  config !! "ros2_distro" = Some (VStr distro) →
  config !! "project_repo" = Some (VStr project_repo) →
  t ∈ archs → mw ∈ mws → distro ∈ distros →
  is_dir h (repo_path h project_repo) = false →
  resolve_strata h config t
  = ([Probe_is_dir (repo_path h project_repo)],
     Fail (MissingPath (repo_path h project_repo))).
Proof.
  intros Hfields ? ? ? ? ? ? ? ? ? ?. header Hfields. declared.
  unfold resolve_strata, repo_path in *. run.
Qed.

Lemma validate_volume h config t archs mws distros mw distro project_repo
    pre v post :
  has_fields config →
  supported_set config "architectures" = Some archs →
  supported_set config "middlewares" = Some mws →
  supported_set config "ros2_distros" = Some distros →
  config !! "middleware" = Some (VStr mw) →
  config !! "ros2_distro" = Some (VStr distro) →
  config !! "project_repo" = Some (VStr project_repo) →
  t ∈ archs → mw ∈ mws → distro ∈ distros →
  is_dir h (repo_path h project_repo) = true →
  config !! "volumes" = Some (VList (VStr <$> (pre ++ v :: post)%list)) →
  Forall (λ v, is_dir h v = true) pre → is_dir h v = false →
  resolve_strata h config t
  = (Probe_is_dir (repo_path h project_repo)
       :: (Probe_is_dir <$> (pre ++ [v])%list),
     Fail (MissingPath v)).
Proof.
  intros Hfields ? ? ? ? ? ? ? ? ? ? ? Hpre Hv. header Hfields. declared.
  pose proof (check_volumes_Fail h pre v post Hpre Hv).
  unfold resolve_strata, repo_path in *. run.
Qed.

(** C4, as stated, fails: with a target outside the supported
    architectures the resolution returns after the first check and probes
    no path at all. *)
Lemma later_checks_skipped :
  generate_config host0 config0 "riscv64"
  = ([], Fail (UnsupportedArchitecture "riscv64"
                 ["x86_64"; "aarch64"; "arm"; "develop"; "deploy"]))
  ∧ paths_to_check host0 config0
    = ["/home/u/robot_ws"; "/data"; "/opt/my maps"]
  ∧ ¬ all_checks_run host0 config0 "riscv64".
Proof.
  assert (generate_config host0 config0 "riscv64" = _) as E
    by (vm_compute; reflexivity).
  assert (paths_to_check host0 config0 = _) as Ep
    by (vm_compute; reflexivity).
  split_and!; [exact E | exact Ep |].
  intros Hall. specialize (Hall "/data"). rewrite E, Ep in Hall.
  cbn in Hall. apply elem_of_nil in Hall; [done|].
  apply (bool_decide_unpack _). vm_compute. exact I.
Qed.

(** C4, amended. The checks are made in order (architecture, middleware,
    distribution, repository path, volumes from first to last) and the
    first one that fails ends the resolution with its diagnostic: no
    later check is made, so no path is probed after a failure and none at
    all when a supported-value check fails.  The outcome is a function of
    the inputs. *)
Theorem validation_stops_at_first_failure h config t
    archs mws distros mw distro project_repo :
  declares config archs mws distros mw distro project_repo →
  (t ∉ archs →
   generate_config h config t = ([], Fail (UnsupportedArchitecture t archs)))
  ∧ (t ∈ archs → mw ∉ mws →
     generate_config h config t = ([], Fail (UnsupportedMiddleware mw mws)))
  ∧ (t ∈ archs → mw ∈ mws → distro ∉ distros →
     generate_config h config t
     = ([], Fail (UnsupportedDistribution distro distros)))
  ∧ (t ∈ archs → mw ∈ mws → distro ∈ distros →
     is_dir h (repo_path h project_repo) = false →
     generate_config h config t
     = ([Probe_is_dir (repo_path h project_repo)],
        Fail (MissingPath (repo_path h project_repo))))
  ∧ (∀ pre v post,
       t ∈ archs → mw ∈ mws → distro ∈ distros →
       is_dir h (repo_path h project_repo) = true →
       config !! "volumes" = Some (VList (VStr <$> (pre ++ v :: post)%list)) →
       Forall (λ v, is_dir h v = true) pre → is_dir h v = false →
       generate_config h config t
       = (Probe_is_dir (repo_path h project_repo)
            :: (Probe_is_dir <$> (pre ++ [v])%list),
          Fail (MissingPath v)))
  ∧ (∀ r1 r2,
       r1 = generate_config h config t → r2 = generate_config h config t →
       r1 = r2).
Proof.
  intros (Hf & Ha & Hm & Hd & Hmw & Hdi & Hpr). split_and!.
  - intros. apply generate_config_Fail. by eapply validate_architecture.
  - intros. apply generate_config_Fail. by eapply validate_middleware.
  - intros. apply generate_config_Fail. by eapply validate_distribution.
  - intros. apply generate_config_Fail. by eapply validate_repo_path.
  - intros. apply generate_config_Fail. by eapply validate_volume.
  - by intros r1 r2 -> ->.
Qed.

Lemma config0_declares :
  declares config0 ["x86_64"; "aarch64"; "arm"; "develop"; "deploy"]
    ["ros2"; "micro-ros"] ["humble"; "jazzy"] "ros2" "jazzy" "robot_ws".
Proof.
  unfold declares. split_and!; try (vm_compute; reflexivity).
  apply (bool_decide_unpack _). vm_compute. exact I.
Defined.

Lemma validation_stops_at_first_failure_witness :
  generate_config host0 config0 "riscv64"
  = ([], Fail (UnsupportedArchitecture "riscv64"
                 ["x86_64"; "aarch64"; "arm"; "develop"; "deploy"]))
  ∧ generate_config host_without_maps config0 "develop"
    = ([Probe_is_dir "/home/u/robot_ws"; Probe_is_dir "/data";
        Probe_is_dir "/opt/my maps"],
       Fail (MissingPath "/opt/my maps")).
Proof.
  split.
  - destruct (validation_stops_at_first_failure host0 config0 "riscv64"
                _ _ _ _ _ _ config0_declares) as (H & _).
    apply H. apply (bool_decide_eq_false_1 _). vm_compute. reflexivity.
  - destruct (validation_stops_at_first_failure host_without_maps config0
                "develop" _ _ _ _ _ _ config0_declares)
      as (_ & _ & _ & _ & H & _).
    apply (H ["/data"] "/opt/my maps" []);
      try (apply (bool_decide_unpack _); vm_compute; exact I);
      vm_compute; reflexivity.
Defined.

(** ** Nothing is written when the resolution fails *)

Lemma main_Fail h config t tr d :
  yaml_documents h !! SOURCE_FILEPATH h = Some config →
  generate_config h config t = (tr, Fail d) →
  main h t
  = {| store := h;
       printed := [message d; "Configuration generation failed. Exiting."];
       raised := None |}.
Proof.
  intros Hy E. unfold main, load_yaml_config. rewrite Hy.
  cbn -[generate_config]. by rewrite E.
Qed.

Lemma run_generate_config_Fail h root_dir config t tr d :
  t ≠ "" →
  yaml_documents h !! joinpath h (joinpath h root_dir "config") "env.yaml"
  = Some config →
  generate_config h config t = (tr, Fail d) →
  Build.run_generate_config h root_dir (Some t)
  = {| store := h;
       printed := [message d; "Configuration generation failed. Exiting."];
       raised := Some (SystemExit 1) |}.
Proof.
  intros Ht Hy E. unfold Build.run_generate_config, load_yaml_config.
  rewrite Hy. cbn -[generate_config].
  rewrite bool_decide_false by done. by rewrite E.
Qed.

(** C8. When the target is outside the declared supported architectures,
    or the middleware outside the declared supported middlewares, the
    resolution ends with the diagnostic of that value; and whenever the
    resolution ends with a diagnostic, [main] of generate_config.py and
    [run_generate_config] of build.py leave the host, the persisted .env
    included, as it was. *)
Theorem unsupported_values_write_nothing h config t archs :
  has_fields config →
  supported_set config "architectures" = Some archs →
  (t ∉ archs →
   generate_config h config t = ([], Fail (UnsupportedArchitecture t archs)))
  ∧ (∀ mws mw,
       supported_set config "middlewares" = Some mws →
       config !! "middleware" = Some (VStr mw) →
       t ∈ archs → mw ∉ mws →
       generate_config h config t
       = ([], Fail (UnsupportedMiddleware mw mws)))
  ∧ (∀ tr d,
       generate_config h config t = (tr, Fail d) →
       (yaml_documents h !! SOURCE_FILEPATH h = Some config →
        store (main h t) = h)
       ∧ (∀ root_dir,
            t ≠ "" →
            yaml_documents h
              !! joinpath h (joinpath h root_dir "config") "env.yaml"
            = Some config →
            store (Build.run_generate_config h root_dir (Some t)) = h
            ∧ raised (Build.run_generate_config h root_dir (Some t))
              = Some (SystemExit 1))).
Proof.
  intros Hf Ha. split_and!.
  - intros. apply generate_config_Fail. by eapply validate_architecture.
  - intros. apply generate_config_Fail. by eapply validate_middleware.
  - intros tr d E. split.
    + intros Hy. by rewrite (main_Fail _ _ _ _ _ Hy E).
    + intros root_dir Ht Hy.
      by rewrite (run_generate_config_Fail _ _ _ _ _ _ Ht Hy E).
Qed.

Lemma unsupported_values_write_nothing_witness :
  generate_config host_other_middleware config_other_middleware "riscv64"
  = ([], Fail (UnsupportedArchitecture "riscv64"
                 ["x86_64"; "aarch64"; "arm"; "develop"; "deploy"]))
  ∧ generate_config host_other_middleware config_other_middleware "develop"
    = ([], Fail (UnsupportedMiddleware "ros1" ["ros2"; "micro-ros"]))
  ∧ store (main host_other_middleware "develop") = host_other_middleware
  ∧ store (Build.run_generate_config host_other_middleware "/home/u/rc"
             (Some "develop"))
    = host_other_middleware.
Proof.
  assert (has_fields config_other_middleware) as Hf
    by (apply (bool_decide_unpack _); vm_compute; exact I).
  assert (supported_set config_other_middleware "architectures"
          = Some ["x86_64"; "aarch64"; "arm"; "develop"; "deploy"]) as Ha
    by (vm_compute; reflexivity).
  destruct (unsupported_values_write_nothing host_other_middleware
              config_other_middleware "riscv64" _ Hf Ha) as (H1 & _).
  destruct (unsupported_values_write_nothing host_other_middleware
              config_other_middleware "develop" _ Hf Ha) as (_ & H2 & H3).
  assert (generate_config host_other_middleware config_other_middleware
            "develop"
          = ([], Fail (UnsupportedMiddleware "ros1" ["ros2"; "micro-ros"])))
    as E.
  { apply H2; try (vm_compute; reflexivity).
    - apply (bool_decide_unpack _). vm_compute. exact I.
    - apply (bool_decide_eq_false_1 _). vm_compute. reflexivity. }
  destruct (H3 _ _ E) as [Hmain Hbuild].
  split_and!.
  - apply H1. apply (bool_decide_eq_false_1 _). vm_compute. reflexivity.
  - exact E.
  - apply Hmain. reflexivity.
  - apply (Hbuild "/home/u/rc"); [discriminate | reflexivity].
Defined.

(** ** micro-ros *)

Lemma micro_ros_branch_rejects dbi archs t bi :
  t ∉ ["develop"; "deploy"] →
  subscript dbi "microros_base_image" = ([], Ok bi) →
  base_image_branch dbi archs "micro-ros" t
  = ([], Fail (UnsupportedArchitecture t archs)).
Proof.
  intros Ht E. unfold base_image_branch.
  rewrite bool_decide_false, bool_decide_true by done. rewrite E.
  rewrite !bool_decide_false by set_solver. done.
Qed.

(** C7. With middleware [micro-ros] a target other than [develop] and
    [deploy] never yields an environment; and on a configuration that
    resolves for [develop], every such target, [aarch64] among them, ends
    with the unsupported-architecture diagnostic that names the target
    and the declared supported architectures. *)
Theorem micro_ros_accepts_only_aliases h config t :
  config !! "middleware" = Some (VStr "micro-ros") →
  t ∉ ["develop"; "deploy"] →
  (∀ tr env, generate_config h config t ≠ (tr, Ok env))
  ∧ (∀ tr env,
       generate_config h config "develop" = (tr, Ok env) →
       ∃ tr' archs,
         supported_set config "architectures" = Some archs
         ∧ generate_config h config t
           = (tr', Fail (UnsupportedArchitecture t archs))).
Proof.
  intros Hmw Ht. split.
  - intros tr env (s & [] & _)%generate_config_Ok_iff.
    match goal with R : branch_row _ _ _ _ |- _ => inversion R end;
      simplify_eq.
    all: set_solver.
  - intros tr env (s & [] & _)%generate_config_Ok_iff. simplify_eq.
    match goal with R : branch_row _ _ _ _ |- _ => inversion R end;
      simplify_eq.
    assert (∀ l, str_items (VStr <$> l) = Some l) as Hitems
      by (intros l; by apply str_items_Some).
    pose proof (Hitems archs). pose proof (Hitems mws).
    pose proof (Hitems distros).
    assert (supported_set config "architectures" = Some archs) as Hset.
    { unfold supported_set.
      repeat match goal with H : _ !! _ = Some _ |- _ => rewrite H end.
      done. }
    destruct (decide (t ∈ archs)) as [Hin | Hout].
    + match goal with
      | H : subscript _ "microros_base_image" = _ |- _ =>
          pose proof (micro_ros_branch_rejects _ archs t _ Ht H)
      end.
      match goal with
      | H : Forall _ _ |- _ =>
          assert (check_volumes h (VStr <$> volumes)
                  = (Probe_is_dir <$> volumes, Ok volumes))
            by (by apply check_volumes_Ok)
      end.
      repeat match goal with
             | H : _ ∈ _ |- _ => apply (bool_decide_eq_true_2 _) in H
             end.
      eexists _, archs. split; [done|]. apply generate_config_Fail.
      unfold resolve_strata, repo_path in *. etrans; [run_steps|].
      reflexivity.
    + exists [], archs. split; [done|]. apply generate_config_Fail.
      unfold resolve_strata. run.
Qed.

Lemma micro_ros_accepts_only_aliases_witness :
  config_micro_ros !! "middleware" = Some (VStr "micro-ros")
  ∧ ("aarch64" ∉ ["develop"; "deploy"])
  ∧ (∀ tr env, generate_config host0 config_micro_ros "aarch64" ≠ (tr, Ok env))
  ∧ (∃ tr' archs,
        supported_set config_micro_ros "architectures" = Some archs
        ∧ generate_config host0 config_micro_ros "aarch64"
          = (tr', Fail (UnsupportedArchitecture "aarch64" archs))).
Proof.
  assert (config_micro_ros !! "middleware" = Some (VStr "micro-ros")) as Hmw
    by (vm_compute; reflexivity).
  assert ("aarch64" ∉ ["develop"; "deploy"]) as Ht.
  { apply (bool_decide_eq_false_1 _). vm_compute. reflexivity. }
  destruct (micro_ros_accepts_only_aliases host0 config_micro_ros "aarch64"
              Hmw Ht) as [Hnever Hfail].
  split_and!; [exact Hmw | exact Ht | exact Hnever |].
  destruct (generate_config host0 config_micro_ros "develop")
    as [tr r] eqn:E.
  vm_compute in E. injection E as <- <-.
  eapply Hfail. vm_compute. reflexivity.
Defined.

(** ** Strings *)

Lemma app_cons c (a b : string) : String c a ++ b = String c (a ++ b).
Proof. reflexivity. Qed.

Lemma app_empty_l (a : string) : "" ++ a = a.
Proof. reflexivity. Qed.

Lemma app_empty_r (a : string) : a ++ "" = a.
Proof. induction a as [|c a IH]; [done|]. by rewrite app_cons, IH. Qed.

Lemma string_app_assoc (a b c : string) : (a ++ b) ++ c = a ++ b ++ c.
Proof. induction a as [|x a IH]; [done|]. by rewrite !app_cons, IH. Qed.

Lemma all_chars_app p (a b : string) :
  all_chars p (a ++ b) = all_chars p a && all_chars p b.
Proof.
  induction a as [|c a IH]; [done|].
  rewrite app_cons. cbn [all_chars]. by rewrite IH, andb_assoc.
Qed.

Lemma all_chars_impl (p q : ascii → bool) s :
  (∀ c, p c = true → q c = true) → all_chars p s = true → all_chars q s = true.
Proof.
  intros Hpq. induction s as [|c s IH]; [done|]. cbn.
  intros [? ?]%andb_true_iff. apply andb_true_iff. auto.
Qed.

Lemma no_break_no_cr s : no_break s = true → no_cr s = true.
Proof.
  apply all_chars_impl. intros c Hc.
  destruct (Ascii.eqb c "013") eqn:E; [|done].
  apply Ascii.eqb_eq in E as ->. done.
Qed.

Lemma universal_newlines_no_cr s : no_cr s = true → universal_newlines s = s.
Proof.
  induction s as [|c s IH]; [done|]. cbn [no_cr all_chars universal_newlines].
  intros [Hc Hs]%andb_true_iff. apply negb_true_iff in Hc. rewrite Hc.
  f_equal. by apply IH.
Qed.

Lemma lstrip_length s : (String.length (lstrip s) ≤ String.length s)%nat.
Proof.
  induction s as [|c s IH]; cbn; [done|]. destruct (is_space c); cbn; lia.
Qed.

Lemma rstrip_length s : (String.length (rstrip s) ≤ String.length s)%nat.
Proof.
  induction s as [|c s IH]; cbn [rstrip]; [done|].
  destruct (all_space (String c s)); cbn; lia.
Qed.

Lemma strip_id_lstrip s : strip s = s → lstrip s = s.
Proof.
  destruct s as [|c s]; [done|]. unfold strip. cbn [lstrip].
  destruct (is_space c); [|done]. intros E. exfalso.
  pose proof (rstrip_length (lstrip s)). pose proof (lstrip_length s).
  rewrite E in *. cbn in *. lia.
Qed.

Lemma strip_id_rstrip s : strip s = s → rstrip s = s.
Proof. intros E. pose proof (strip_id_lstrip s E) as El. unfold strip in E. by rewrite El in E. Qed.

Lemma lstrip_id_head c s : lstrip (String c s) = String c s → is_space c = false.
Proof.
  cbn. destruct (is_space c); [|done]. intros E.
  pose proof (lstrip_length s). rewrite E in *. cbn in *. lia.
Qed.

Lemma all_space_app_r (a b : string) :
  all_space b = false → all_space (a ++ b) = false.
Proof.
  intros Hb. induction a as [|c a IH]; [done|].
  rewrite app_cons. cbn. rewrite IH. apply andb_false_r.
Qed.

Lemma rstrip_app (a b : string) :
  all_space b = false → rstrip (a ++ b) = a ++ rstrip b.
Proof.
  intros Hb. induction a as [|c a IH]; [done|].
  rewrite !app_cons. cbn [rstrip].
  change (all_space (String c (a ++ b))) with (is_space c && all_space (a ++ b)).
  rewrite (all_space_app_r a b Hb), andb_false_r. by rewrite IH.
Qed.

(** A line [key=value] whose parts have no blank at their ends has none
    at its own. *)
Lemma strip_line (k v : string) :
  strip k = k → strip v = v → strip (k ++ "=" ++ v) = k ++ "=" ++ v.
Proof.
  intros Hk Hv. unfold strip.
  assert (lstrip (k ++ "=" ++ v) = k ++ "=" ++ v) as ->.
  { destruct k as [|c k]; [done|]. rewrite app_cons. cbn [lstrip].
    by rewrite (lstrip_id_head c k (strip_id_lstrip _ Hk)). }
  rewrite rstrip_app by done.
  change ("=" ++ v) with (String "=" v). cbn [rstrip].
  change (all_space (String "=" v)) with false. cbn.
  by rewrite (strip_id_rstrip v Hv).
Qed.

Lemma has_char_app_r c (a b : string) :
  has_char c b = true → has_char c (a ++ b) = true.
Proof.
  intros Hb. induction a as [|d a IH]; [done|].
  rewrite app_cons. cbn. by destruct (Ascii.eqb c d).
Qed.

Lemma split_once_first c (k v : string) :
  has_char c k = false → split_once c (k ++ String c v) = (k, v).
Proof.
  induction k as [|d k IH]; intros Hk.
  - rewrite app_empty_l. cbn. by rewrite Ascii.eqb_refl.
  - rewrite app_cons. cbn in *. destruct (Ascii.eqb c d); [done|].
    by rewrite IH.
Qed.

Lemma splitlines_go_line cur line rest :
  no_break line = true →
  splitlines_go cur (line ++ String "010" rest)
  = (cur ++ line) :: splitlines_go "" rest.
Proof.
  revert cur. induction line as [|c line IH]; intros cur Hl.
  - rewrite app_empty_l, app_empty_r. cbn. by destruct rest.
  - rewrite app_cons. cbn [no_break all_chars] in Hl.
    apply andb_true_iff in Hl as [Hc Hl]. apply negb_true_iff in Hc.
    cbn [splitlines_go]. rewrite Hc. rewrite (IH _ Hl).
    by rewrite string_app_assoc.
Qed.

(** ** The persisted environment, written and read back *)

Lemma env_lines_lift env : env_lines (lift env) = ([], Ok (env_text env)).
Proof.
  induction env as [|[k v] env IH]; [done|].
  cbn [lift fmap list_fmap env_lines env_text]. fold (lift env).
  run.
Qed.

Lemma key_ok_inv k :
  key_ok k = true →
  no_break k = true ∧ has_char "=" k = false
  ∧ startswith k "#" = false ∧ strip k = k.
Proof.
  unfold key_ok. rewrite !andb_true_iff, !negb_true_iff.
  intros [[[? ?] ?] ?%bool_decide_eq_true_1]. done.
Qed.

Lemma value_ok_inv v :
  value_ok v = true → no_break v = true ∧ strip v = v.
Proof.
  unfold value_ok. rewrite andb_true_iff.
  by intros [? ?%bool_decide_eq_true_1].
Qed.

Lemma no_break_line k v :
  no_break k = true → no_break v = true → no_break (k ++ "=" ++ v) = true.
Proof.
  unfold no_break. intros Hk Hv. rewrite !all_chars_app, Hk, Hv. done.
Qed.

Lemma not_comment_line (k v : string) :
  startswith k "#" = false → startswith (k ++ "=" ++ v) "#" = false.
Proof.
  unfold startswith. destruct k as [|c k]; [reflexivity|].
  rewrite app_cons. cbn [String.prefix].
  destruct (ascii_dec "#" c); [|done]. by destruct k.
Qed.

Lemma parse_line_item acc k v :
  key_ok k = true → value_ok v = true →
  Build.parse_line acc (k ++ "=" ++ v) = set k v acc.
Proof.
  intros (Hkb & Hke & Hkh & Hks)%key_ok_inv (Hvb & Hvs)%value_ok_inv.
  unfold Build.parse_line. rewrite (strip_line k v Hks Hvs).
  rewrite bool_decide_false by (by destruct k).
  rewrite (not_comment_line k v Hkh). cbn [orb].
  rewrite has_char_app_r by done. cbn [negb].
  change ("=" ++ v) with (String "=" v).
  rewrite (split_once_first "=" k v Hke). by rewrite Hks, Hvs.
Qed.

Lemma splitlines_env_text env :
  Forall (λ kv, key_ok kv.1 = true ∧ value_ok kv.2 = true) env →
  splitlines (env_text env) = (λ kv, kv.1 ++ "=" ++ kv.2) <$> env.
Proof.
  unfold splitlines. induction 1 as [|[k v] env [Hk Hv] _ IH]; [done|].
  apply key_ok_inv in Hk as (Hkb & _). apply value_ok_inv in Hv as (Hvb & _).
  cbn [env_text fmap list_fmap fst snd].
  change (k ++ "=" ++ v ++ LF ++ env_text env)
    with (k ++ "=" ++ v ++ String "010" (env_text env)).
  rewrite <- (string_app_assoc "=" v), <- (string_app_assoc k).
  rewrite splitlines_go_line by (by apply no_break_line).
  by rewrite IH.
Qed.

Lemma no_cr_env_text env :
  Forall (λ kv, key_ok kv.1 = true ∧ value_ok kv.2 = true) env →
  no_cr (env_text env) = true.
Proof.
  induction 1 as [|[k v] env [Hk Hv] _ IH]; [done|]. cbn [fst snd] in Hk, Hv.
  apply key_ok_inv in Hk as (Hkb%no_break_no_cr & _).
  apply value_ok_inv in Hv as (Hvb%no_break_no_cr & _).
  cbn [env_text]. unfold no_cr in *.
  rewrite !all_chars_app, Hkb, Hvb, IH. done.
Qed.

Lemma parse_lines acc env :
  Forall (λ kv, key_ok kv.1 = true ∧ value_ok kv.2 = true) env →
  foldl Build.parse_line acc ((λ kv, kv.1 ++ "=" ++ kv.2) <$> env)
  = union acc env.
Proof.
  intros Hok. revert acc.
  induction Hok as [|[k v] env [Hk Hv] _ IH]; intros acc; [done|].
  cbn [fst snd] in Hk, Hv. cbn [fmap list_fmap foldl fst snd]. rewrite parse_line_item by done.
  unfold union in *. cbn [foldl fst snd]. apply IH.
Qed.

(** C9, amended. A mapping of strings with distinct keys, whose keys have
    no line break, no equals sign, no leading hash and no blank at either
    end, and whose values have no line break (line feed, carriage return
    or another character [str.splitlines] breaks at) and no blank at
    either end, is read back as it was written, in the same order. *)
Theorem env_round_trip h env filename :
  NoDup (keys env) →
  Forall (λ kv, key_ok kv.1 = true ∧ value_ok kv.2 = true) env →
  round_trips h env filename.
Proof.
  intros Hnd Hok. exists (write_file h filename (env_text env)). split.
  - unfold write_env_config. rewrite env_lines_lift. done.
  - unfold Build.parse_env_file, Build.parse_env_text. cbn [files write_file].
    rewrite lookup_insert_eq.
    rewrite universal_newlines_no_cr by (by apply no_cr_env_text).
    rewrite splitlines_env_text, parse_lines by done.
    f_equal. rewrite union_disjoint; [done | done |]. set_solver.
Qed.

Lemma write_env_config_lift h env filename :
  write_env_config h (lift env) filename
  = ([], Ok (write_file h filename (env_text env))).
Proof. unfold write_env_config. by rewrite env_lines_lift. Qed.

(** C9, as stated, fails: the environment resolved from a configuration
    whose run command ends in a blank has no newline in any value, and
    is read back with another run command. *)
Lemma round_trip_strips_blanks :
  (generate_config host0 config_spaced "develop").2 = Ok (lift env_spaced)
  ∧ Forall (λ kv, has_char "010" kv.2 = false) env_spaced
  ∧ get "CONTAINER_RUN_CMD" env_spaced = Some "bash "
  ∧ (∃ parsed,
       Build.parse_env_file
         (write_file host0 "/home/u/rc/config/.env" (env_text env_spaced))
         "/home/u/rc/config/.env" = Ok parsed
       ∧ get "CONTAINER_RUN_CMD" parsed = Some "bash")
  ∧ ¬ round_trips host0 env_spaced "/home/u/rc/config/.env".
Proof.
  assert (∃ parsed,
       Build.parse_env_file
         (write_file host0 "/home/u/rc/config/.env" (env_text env_spaced))
         "/home/u/rc/config/.env" = Ok parsed
       ∧ get "CONTAINER_RUN_CMD" parsed = Some "bash") as Hparsed.
  { eexists. split; [vm_compute; reflexivity|]. vm_compute. reflexivity. }
  split_and!.
  - vm_compute. reflexivity.
  - apply (bool_decide_unpack _). vm_compute. exact I.
  - vm_compute. reflexivity.
  - exact Hparsed.
  - intros (h' & Hw & Hp). rewrite write_env_config_lift in Hw.
    assert (h' = write_file host0 "/home/u/rc/config/.env"
                   (env_text env_spaced)) as -> by congruence.
    destruct Hparsed as (parsed & Hp' & Hget).
    rewrite Hp in Hp'. injection Hp' as <-. vm_compute in Hget.
    discriminate Hget.
Qed.

Lemma env_round_trip_witness :
  (generate_config host0 config0 "develop").2 = Ok (lift env_develop)
  ∧ NoDup (keys env_develop)
  ∧ Forall (λ kv, key_ok kv.1 = true ∧ value_ok kv.2 = true) env_develop
  ∧ round_trips host0 env_develop "/home/u/rc/config/.env".
Proof.
  assert (NoDup (keys env_develop)) as Hnd
    by (apply (bool_decide_unpack _); vm_compute; exact I).
  assert (Forall (λ kv, key_ok kv.1 = true ∧ value_ok kv.2 = true)
            env_develop) as Hok
    by (repeat constructor; vm_compute; reflexivity).
  split_and!; [vm_compute; reflexivity | exact Hnd | exact Hok |].
  exact (env_round_trip host0 env_develop "/home/u/rc/config/.env" Hnd Hok).
Defined.

(** ** Architecture tokens and the platform option *)

(** What build.py's [normalize_arch] returns, for every token. *)
Lemma build_normalize_arch_spec a :
  Build.normalize_arch a
  = let s := lower (strip a) in
    if bool_decide (s = "arm64") then "aarch64"
    else if startswith s "armv7" then "armv7"
    else s.
Proof.
  unfold Build.normalize_arch. cbn zeta.
  destruct (decide (lower (strip a) = "arm64")) as [-> | Hne]; [done|].
  rewrite (bool_decide_false _ Hne), bool_decide_false by set_solver.
  destruct (startswith (lower (strip a)) "armv7") eqn:E; [done|].
  cbn [orb]. case_bool_decide as E'; [|done]. by rewrite E' in E.
Qed.

Lemma build_normalize_arch_examples :
  Forall (λ a, Build.normalize_arch a = "aarch64") ["arm64"; "ARM64"; " arm64 "]
  ∧ Forall (λ a, Build.normalize_arch a = "armv7") ["armv7"; "armv7l"; "ARMV7L"].
Proof. split; repeat constructor. Qed.

(** What build.py's [choose_platform_option] returns, for every pair of
    tokens: a function of the normalized target alone. *)
Lemma build_choose_platform_option_spec target_arch source_arch :
  let targ := Build.normalize_arch target_arch in
  (targ ∈ ["develop"; "x86_64"] →
   Build.choose_platform_option target_arch source_arch
   = Some "--platform=linux/amd64")
  ∧ (targ ∈ ["deploy"; "arm"; "aarch64"] →
     Build.choose_platform_option target_arch source_arch
     = Some "--platform=linux/arm64")
  ∧ (targ = "armv7" →
     Build.choose_platform_option target_arch source_arch
     = Some "--platform=linux/arm/v7")
  ∧ (targ ∉ ["develop"; "x86_64"; "deploy"; "arm"; "aarch64"; "armv7"] →
     Build.choose_platform_option target_arch source_arch = None)
  ∧ (∀ source_arch',
       Build.choose_platform_option target_arch source_arch
       = Build.choose_platform_option target_arch source_arch').
Proof.
  cbn zeta. unfold Build.choose_platform_option. cbn zeta.
  generalize (Build.normalize_arch target_arch). intros targ.
  split; [|split; [|split; [|split]]]; try intros H.
  - by rewrite bool_decide_true.
  - rewrite bool_decide_false, bool_decide_true; [done | done |].
    intros H'. clear -H H'. set_solver.
  - rewrite H. done.
  - rewrite !bool_decide_false; [done | | |]; clear -H; set_solver.
  - done.
Qed.

Lemma run_normalize_arch_never_armv7 a : Run.normalize_arch a ≠ "armv7".
Proof.
  unfold Run.normalize_arch. repeat case_bool_decide; try done.
  destruct (startswith (lower (strip a)) "armv7") eqn:E; cbn [orb]; [done|].
  intros E'. by rewrite E' in E.
Qed.

(** C2. run.py's [choose_platform_option] returns the arm64 flag for the
    raw target [armv7l], whatever the source, where build.py's returns
    the arm/v7 flag; its normalizer never returns [armv7], so run.py's
    selector never returns the arm/v7 flag at all. *)
Theorem run_platform_option_armv7l source_arch :
  Run.choose_platform_option "armv7l" source_arch
  = Some "--platform=linux/arm64"
  ∧ Build.choose_platform_option "armv7l" source_arch
    = Some "--platform=linux/arm/v7"
  ∧ ∀ target_arch,
      Run.choose_platform_option target_arch source_arch
      ≠ Some "--platform=linux/arm/v7".
Proof.
  split_and!; [done | done |]. intros target_arch.
  unfold Run.choose_platform_option.
  pose proof (run_normalize_arch_never_armv7 target_arch).
  repeat case_bool_decide; done.
Qed.

(** C3. run.py's [normalize_arch] returns [arm] for each of the tokens
    [armv7], [armv7l] and [ARMV7L], where build.py's returns [armv7]; on
    the three spellings of [arm64] both return [aarch64]. *)
Theorem run_normalize_arch_armv7 :
  Forall (λ a, Run.normalize_arch a = "arm") ["armv7"; "armv7l"; "ARMV7L"]
  ∧ Forall (λ a, Build.normalize_arch a = "armv7")
      ["armv7"; "armv7l"; "ARMV7L"]
  ∧ Forall (λ a, Run.normalize_arch a = "aarch64")
      ["arm64"; "ARM64"; " arm64 "]
  ∧ Forall (λ a, Build.normalize_arch a = "aarch64")
      ["arm64"; "ARM64"; " arm64 "].
Proof. split_and!; repeat constructor. Qed.

(** * Further properties of the code *)

(** ** The array of volumes, written by generate_config.py and read by
    run.py *)

Lemma safe_char_plain c :
  is_safe c = true →
  Shlex.is_whitespace c = false ∧ Shlex.is_quote c = false
  ∧ Shlex.is_escape c = false ∧ is_space c = false.
Proof.
  destruct c as [[] [] [] [] [] [] [] []]; vm_compute; intros E;
    first [discriminate E | done].
Qed.

Lemma lex_word_safe q t u rest :
  all_safe u = true →
  Shlex.lex Shlex.Word q t (u ++ rest) = Shlex.lex Shlex.Word q (t ++ u) rest.
Proof.
  revert t. induction u as [|c u IH]; intros t Hu.
  - by rewrite app_empty_l, app_empty_r.
  - cbn [all_safe] in Hu. apply andb_true_iff in Hu as [Hc Hu].
    apply safe_char_plain in Hc as (Hw & Hq & He & _).
    rewrite app_cons. cbn [Shlex.lex]. rewrite Hw, Hq, He.
    rewrite (IH _ Hu). by rewrite string_app_assoc.
Qed.

Lemma replace_quote_cons c u :
  replace "'" quoted_quote (String c u)
  = if Ascii.eqb c "'" then quoted_quote ++ replace "'" quoted_quote u
    else String c (replace "'" quoted_quote u).
Proof.
  destruct (Ascii.eqb c "'") eqn:E.
  - apply Ascii.eqb_eq in E as ->.
    by apply (replace_match "'" quoted_quote u).
  - apply replace_skip; [done|]. cbn [String.prefix].
    destruct (ascii_dec "'" c) as [<- | ?]; [|done].
    by rewrite Ascii.eqb_refl in E.
Qed.

Lemma lex_single_quoted q t u rest :
  Shlex.lex (Shlex.Quote "'") q t
    (replace "'" quoted_quote u ++ String "'" rest)
  = Shlex.lex Shlex.Word true (t ++ u) rest.
Proof.
  revert q t. induction u as [|c u IH]; intros q t.
  - rewrite replace_empty by done. by rewrite app_empty_l, app_empty_r.
  - rewrite replace_quote_cons. destruct (Ascii.eqb c "'") eqn:E.
    + apply Ascii.eqb_eq in E as ->. unfold quoted_quote.
      rewrite !app_cons, app_empty_l. cbn. rewrite IH.
      by rewrite string_app_assoc.
    + rewrite app_cons. cbn [Shlex.lex]. rewrite E.
      replace (Shlex.is_escape c && Ascii.eqb "'" "034") with false
        by (by rewrite andb_false_r).
      rewrite IH. by rewrite string_app_assoc.
Qed.

(** After a quoted item the lexer is in a word that holds the item. *)
Lemma lex_quoted_item x rest :
  ∃ q, Shlex.pending x q = true
       ∧ Shlex.lex Shlex.Blank false "" (shlex_quote x ++ rest)
         = Shlex.lex Shlex.Word q x rest.
Proof.
  unfold shlex_quote. case_bool_decide as Hx.
  - subst x. exists true. split; [done|]. by destruct rest.
  - destruct (all_safe x) eqn:Hs.
    + exists false. split.
      { unfold Shlex.pending. by rewrite bool_decide_false. }
      destruct x as [|c x]; [done|]. cbn [all_safe] in Hs.
      apply andb_true_iff in Hs as [Hc Hs].
      apply safe_char_plain in Hc as (Hw & Hq & He & _).
      rewrite app_cons. cbn [Shlex.lex]. rewrite Hw, Hq, He.
      by rewrite lex_word_safe.
    + exists true. split; [unfold Shlex.pending; by rewrite orb_true_r|].
      fold quoted_quote.
      change ("'" ++ replace "'" quoted_quote x ++ "'")
        with (String "'" (replace "'" quoted_quote x ++ String "'" "")).
      rewrite app_cons, string_app_assoc. cbn [Shlex.lex].
      change (Shlex.is_whitespace "'") with false.
      change (Shlex.is_escape "'") with false.
      change (Shlex.is_quote "'") with true. cbn match.
      rewrite app_cons, app_empty_l. by rewrite lex_single_quoted.
Qed.

Lemma split_quoted_items items :
  Shlex.split (join " " (shlex_quote <$> items)) = Shlex.Tokens items.
Proof.
  unfold Shlex.split. induction items as [|x items IH]; [done|].
  destruct items as [|y items].
  - cbn [fmap list_fmap join].
    destruct (lex_quoted_item x "") as (q & Hq & E).
    rewrite app_empty_r in E. rewrite E. cbn. by rewrite Hq.
  - change (join " " (shlex_quote <$> x :: y :: items))
      with (shlex_quote x
            ++ String " " (join " " (shlex_quote <$> y :: items))).
    destruct (lex_quoted_item x
                (String " " (join " " (shlex_quote <$> y :: items))))
      as (q & Hq & ->).
    cbn [Shlex.lex]. change (Shlex.is_whitespace " ") with true. cbn match.
    rewrite Hq, IH. done.
Qed.

Lemma trimmed_strip s : trimmed s → strip s = s.
Proof. intros (_ & Hl & Hr). unfold strip. by rewrite Hl. Qed.

Lemma trimmed_not_all_space s : trimmed s → all_space s = false.
Proof.
  intros (Hne & _ & Hr). destruct s as [|c s]; [done|].
  cbn [rstrip] in Hr. by destruct (all_space (String c s)).
Qed.

Lemma trimmed_app (a b : string) : trimmed a → trimmed b → trimmed (a ++ b).
Proof.
  intros (Ha & Hla & _) Hb. destruct a as [|c a]; [done|].
  split_and!.
  - by rewrite app_cons.
  - rewrite app_cons. cbn [lstrip].
    by rewrite (lstrip_id_head c a Hla).
  - rewrite rstrip_app by (by apply trimmed_not_all_space).
    by destruct Hb as (_ & _ & ->).
Qed.

Lemma trimmed_app_blank (a b : string) :
  trimmed a → trimmed b → trimmed (a ++ String " " b).
Proof.
  intros (Ha & Hla & _) Hb. destruct a as [|c a]; [done|].
  split_and!.
  - by rewrite app_cons.
  - rewrite app_cons. cbn [lstrip].
    by rewrite (lstrip_id_head c a Hla).
  - rewrite rstrip_app.
    + cbn [rstrip].
      change (all_space (String " " b)) with (true && all_space b).
      rewrite (trimmed_not_all_space b Hb). cbn.
      by destruct Hb as (_ & _ & ->).
    + change (all_space (String " " b)) with (true && all_space b).
      by rewrite (trimmed_not_all_space b Hb).
Qed.

Lemma trimmed_safe x : x ≠ "" → all_safe x = true → trimmed x.
Proof.
  intros Hx Hs. split_and!; [done | |].
  - destruct x as [|c x]; [done|]. cbn in *.
    apply andb_true_iff in Hs as [Hc _].
    apply safe_char_plain in Hc as (_ & _ & _ & ->). done.
  - clear Hx. induction x as [|c x IH]; [done|]. cbn [all_safe] in Hs.
    apply andb_true_iff in Hs as [Hc Hs].
    apply safe_char_plain in Hc as (_ & _ & _ & Hc).
    cbn [rstrip].
    change (all_space (String c x)) with (is_space c && all_space x).
    rewrite Hc. cbn. by rewrite IH.
Qed.

Lemma trimmed_shlex_quote x : trimmed (shlex_quote x).
Proof.
  unfold shlex_quote. case_bool_decide as Hx; [done|].
  destruct (all_safe x) eqn:Hs; [by apply trimmed_safe|].
  split_and!; [done | done |].
  rewrite <- (string_app_assoc "'"). by rewrite rstrip_app.
Qed.

Lemma trimmed_join_quoted x items :
  trimmed (join " " (shlex_quote <$> x :: items)).
Proof.
  revert x. induction items as [|y items IH]; intros x.
  - apply trimmed_shlex_quote.
  - change (join " " (shlex_quote <$> x :: y :: items))
      with (shlex_quote x
            ++ String " " (join " " (shlex_quote <$> y :: items))).
    apply trimmed_app_blank; [apply trimmed_shlex_quote | apply IH].
Qed.

Lemma drop_last_app c (s : string) :
  RunCommand.drop_last (s ++ String c "") = s.
Proof.
  induction s as [|d s IH]; [done|]. rewrite app_cons.
  cbn [RunCommand.drop_last]. rewrite IH.
  destruct s; done.
Qed.

Lemma endswith_char_app c (s : string) :
  RunCommand.endswith_char (s ++ String c "") c = true.
Proof.
  induction s as [|d s IH]; [cbn; apply Ascii.eqb_refl|]. rewrite app_cons.
  cbn [RunCommand.endswith_char]. rewrite IH. by destruct s.
Qed.

Lemma startswith_head c (s : string) : startswith (String c s) (String c "") = true.
Proof.
  unfold startswith. cbn [String.prefix].
  destruct (ascii_dec c c); [by destruct s | done].
Qed.

Lemma parse_bash_array_quoted items :
  RunCommand.parse_bash_array (bash_array_assignment items)
  = Shlex.Tokens items.
Proof.
  unfold bash_array_assignment, RunCommand.parse_bash_array. cbn zeta.
  set (J := join " " (shlex_quote <$> items)).
  assert (strip ("(" ++ J ++ ")") = "(" ++ J ++ ")") as ->.
  { unfold strip. change (lstrip ("(" ++ J ++ ")")) with ("(" ++ J ++ ")").
    rewrite <- (string_app_assoc "(" J ")"). by rewrite rstrip_app. }
  rewrite bool_decide_false by done.
  change ("(" ++ J ++ ")") with (String "(" (J ++ String ")" "")).
  rewrite startswith_head.
  rewrite <- (app_cons "(" J (String ")" "")), endswith_char_app.
  rewrite app_cons. cbn [andb RunCommand.drop_first].
  rewrite drop_last_app. subst J.
  destruct items as [|x items]; [done|].
  rewrite (trimmed_strip _ (trimmed_join_quoted x items)).
  rewrite bool_decide_false by apply trimmed_join_quoted.
  apply split_quoted_items.
Qed.

(** X1. The array text that [bash_array_assignment] builds from a list
    of strings is read back by run.py's [parse_bash_array] as that list:
    whatever the items contain (blanks, quotes of either kind,
    backslashes, line breaks, nothing at all), no item is split, merged,
    altered or lost. *)
Theorem parse_bash_array_round_trip items :
  RunCommand.parse_bash_array (bash_array_assignment items)
  = Shlex.Tokens items.
Proof. apply parse_bash_array_quoted. Qed.

(** ** What a resolution that returns has decided *)


Lemma generate_config_keys h config t tr env :
  generate_config h config t = (tr, Ok env) → keys env = resolved_keys.
Proof. by intros (s & [] & ->)%generate_config_Ok_iff. Qed.

(** X3. Every environment [generate_config] returns binds the same
    nineteen keys in the same order, each once; among them are all the
    keys build.py and run.py require before they assemble a command. *)
Theorem resolved_environment_keys h config t tr env :
  generate_config h config t = (tr, Ok env) →
  keys env = resolved_keys
  ∧ NoDup (keys env)
  ∧ BuildCommand.required ⊆ keys env
  ∧ RunCommand.required ⊆ keys env.
Proof.
  intros (s & [] & ->)%generate_config_Ok_iff.
  assert (NoDup resolved_keys) as Hnd
    by (apply (bool_decide_unpack _); vm_compute; exact I).
  split_and!; [reflexivity | exact Hnd | |].
  - change (BuildCommand.required ⊆ resolved_keys).
    apply (bool_decide_unpack _). vm_compute. exact I.
  - change (RunCommand.required ⊆ resolved_keys).
    apply (bool_decide_unpack _). vm_compute. exact I.
Qed.

Lemma resolved_environment_keys_witness :
  ∃ tr env,
    generate_config host0 config0 "deploy" = (tr, Ok env)
    ∧ keys env = resolved_keys.
Proof.
  destruct (generate_config host0 config0 "deploy") as [tr r] eqn:E.
  vm_compute in E. injection E as <- <-.
  eexists _, _. split; [reflexivity|].
  eapply (resolved_environment_keys host0 config0 "deploy").
  vm_compute. reflexivity.
Defined.

(** X4. Only two middlewares resolve, whatever the [supported] block
    declares, and each only for its own targets: an environment is
    returned only for [ros2] with one of the five tokens [develop],
    [x86_64], [deploy], [arm], [aarch64], or for [micro-ros] with
    [develop] or [deploy]. *)
Theorem resolvable_pairs h config t tr env :
  generate_config h config t = (tr, Ok env) →
  (config !! "middleware" = Some (VStr "ros2")
   ∧ t ∈ ["develop"; "x86_64"; "deploy"; "arm"; "aarch64"])
  ∨ (config !! "middleware" = Some (VStr "micro-ros")
     ∧ t ∈ ["develop"; "deploy"]).
Proof.
  intros (s & [] & ->)%generate_config_Ok_iff.
  match goal with R : branch_row _ _ _ _ |- _ => inversion R end;
    simplify_eq; [left | left | right | right]; (split; [done|]);
    match goal with
    | H : _ ∈ _ |- _ => clear -H; set_solver
    | _ => set_solver
    end.
Qed.

Lemma resolvable_pairs_witness :
  ∃ tr env,
    generate_config host0 config_micro_ros "deploy" = (tr, Ok env)
    ∧ config_micro_ros !! "middleware" = Some (VStr "micro-ros").
Proof.
  destruct (generate_config host0 config_micro_ros "deploy") as [tr r] eqn:E.
  vm_compute in E. injection E as <- <-.
  eexists _, _. split; [reflexivity|].
  destruct (resolvable_pairs host0 config_micro_ros "deploy" _ _
              ltac:(vm_compute; reflexivity)) as [[Hm _] | [Hm _]];
    [vm_compute in Hm; discriminate Hm | exact Hm].
Defined.



(** X6. For [ros2] the target tokens of one class are interchangeable:
    when the resolution returns for one of [develop], [x86_64] it returns
    the same environment, after the same probes, for the other, provided
    the other is declared supported too; likewise among [deploy], [arm]
    and [aarch64]. *)
Theorem ros2_tokens_interchangeable h config t t' tr env archs :
  config !! "middleware" = Some (VStr "ros2") →
  supported_set config "architectures" = Some archs →
  t' ∈ archs →
  (t ∈ ["develop"; "x86_64"] ∧ t' ∈ ["develop"; "x86_64"])
  ∨ (t ∈ ["deploy"; "arm"; "aarch64"] ∧ t' ∈ ["deploy"; "arm"; "aarch64"]) →
  generate_config h config t = (tr, Ok env) →
  generate_config h config t' = (tr, Ok env).
Proof.
  intros Hmw Hset Ht' Hclass (s & Hres & ->)%generate_config_Ok_iff.
  apply generate_config_Ok_iff. exists s. split; [|done].
  destruct Hres. simplify_eq.
  apply supported_set_Some in Hset as (d & raw & ? & ? & Hraw).
  simplify_eq.
  match goal with
  | H : d !! "architectures" = Some (VList (VStr <$> ?l)) |- _ =>
      assert (l = archs) as ->
        by (pose proof (proj2 (str_items_Some (VStr <$> l) l) eq_refl);
            congruence)
  end.
  eapply Resolved; eauto.
  match goal with R : branch_row _ _ _ _ |- _ => inversion R end;
    simplify_eq.
  - apply Row_ros2_develop; [done | | done].
    destruct Hclass as [[_ ?] | [Hc _]]; [done|]. exfalso.
    match goal with H : t ∈ ["develop"; "x86_64"] |- _ =>
      clear -H Hc; set_solver end.
  - apply Row_ros2_deploy; [done | | done].
    destruct Hclass as [[Hc _] | [_ ?]]; [|done]. exfalso.
    match goal with H : t ∈ ["deploy"; "arm"; "aarch64"] |- _ =>
      clear -H Hc; set_solver end.
Qed.

Lemma ros2_tokens_interchangeable_witness :
  generate_config host0 config0 "x86_64"
  = generate_config host0 config0 "develop"
  ∧ ∃ tr env, generate_config host0 config0 "develop" = (tr, Ok env).
Proof.
  destruct (generate_config host0 config0 "develop") as [tr r] eqn:E.
  vm_compute in E. injection E as <- <-.
  split; [|by eexists _, _].
  eapply (ros2_tokens_interchangeable host0 config0 "develop" "x86_64").
  - vm_compute. reflexivity.
  - vm_compute. reflexivity.
  - apply (bool_decide_unpack _). vm_compute. exact I.
  - left. split; apply (bool_decide_unpack _); vm_compute; exact I.
  - vm_compute. reflexivity.
Defined.

(** ** build.py: from the environment to the docker build command *)

(** X7. [make_build_args] returns two arguments per entry of [keys], in
    order, when every variable named there is bound in the environment;
    otherwise it raises [KeyError] for the first one that is not, and
    returns nothing for the entries before it. *)
Theorem make_build_args_spec env keys :
  (Forall (λ kv, is_Some (get kv.2 env)) keys →
   BuildCommand.make_build_args env keys
   = Ok (concat (build_arg env <$> keys)))
  ∧ (∀ pre build_key env_key post,
       keys = (pre ++ (build_key, env_key) :: post)%list →
       Forall (λ kv, is_Some (get kv.2 env)) pre →
       get env_key env = None →
       BuildCommand.make_build_args env keys
       = Raise (KeyError (key_error_text env_key))).
Proof.
  split.
  - induction 1 as [|[bk ek] keys [v Hv] _ IH]; [done|].
    cbn [BuildCommand.make_build_args fmap list_fmap concat].
    unfold build_arg at 1. cbn [fst snd] in *. by rewrite Hv, IH.
  - intros pre bk ek post -> Hpre Hnone.
    induction Hpre as [|[bk' ek'] pre [v Hv] _ IH].
    + cbn. by rewrite Hnone.
    + cbn [app BuildCommand.make_build_args]. cbn [fst snd] in *.
      by rewrite Hv, IH.
Qed.

Lemma make_build_args_spec_witness :
  BuildCommand.make_build_args env_develop BuildCommand.build_arg_map
  = Ok ["--build-arg"; "CONTAINER_USR=dev"; "--build-arg"; "CONTAINER_PSW=dev";
        "--build-arg"; "CONTAINER_UID=1000"; "--build-arg"; "CONTAINER_GID=1000"]
  ∧ BuildCommand.make_build_args [("CONTAINER_USR", "dev")]
      BuildCommand.build_arg_map
    = Raise (KeyError "Required variable CONTAINER_PSW not found in .env").
Proof.
  split.
  - apply (proj1 (make_build_args_spec env_develop BuildCommand.build_arg_map)).
    apply (bool_decide_unpack _). vm_compute. exact I.
  - apply (proj2 (make_build_args_spec [("CONTAINER_USR", "dev")]
                    BuildCommand.build_arg_map)
             [("CONTAINER_USR", "CONTAINER_USR")] "CONTAINER_PSW"
             "CONTAINER_PSW"
             [("CONTAINER_UID", "CONTAINER_UID");
              ("CONTAINER_GID", "CONTAINER_GID")]).
    + reflexivity.
    + apply (bool_decide_unpack _). vm_compute. exact I.
    + vm_compute. reflexivity.
Defined.

Lemma find_unbound_None (env : dict string) (l : list string) :
  Forall (λ k, is_Some (get k env)) l →
  List.find (λ k, bool_decide (get k env = None)) l = None.
Proof.
  induction 1 as [|k l [v Hv] _ IH]; [done|]. cbn.
  rewrite bool_decide_false by congruence. done.
Qed.

Lemma find_unbound_first (env : dict string) (pre : list string) k post :
  Forall (λ k, is_Some (get k env)) pre → get k env = None →
  List.find (λ k, bool_decide (get k env = None)) (pre ++ k :: post)%list
  = Some k.
Proof.
  intros Hpre Hk. induction Hpre as [|k' pre [v Hv] _ IH]; cbn.
  - by rewrite bool_decide_true.
  - rewrite bool_decide_false by congruence. done.
Qed.

Lemma build_from_env_bound h root_dir env :
  Forall (λ k, is_Some (get k env)) BuildCommand.required →
  BuildCommand.build_from_env h root_dir env
  = BuildCommand.BuildRun h (docker_build_command h root_dir env).
Proof.
  intros Hreq. unfold BuildCommand.build_from_env.
  rewrite (find_unbound_None env _ Hreq).
  unfold BuildCommand.required in Hreq.
  repeat match goal with
         | H : Forall _ (_ :: _) |- _ =>
             apply Forall_cons in H as [[? ?] H]
         end.
  unfold BuildCommand.item, docker_build_command.
  cbn [BuildCommand.make_build_args BuildCommand.build_arg_map].
  repeat match goal with
         | H : get ?k env = Some _ |- _ => rewrite !H; clear H
         end.
  reflexivity.
Qed.

(** X8. Once the environment is parsed, [build] ends in one of two ways
    only.  If a required variable is unbound it exits for the first such
    variable of its list, naming it; otherwise it runs the docker build
    command, whose last argument is the root directory, preceded by the
    platform option when there is one.  The exit for a failure of
    [make_build_args] (status 6) cannot happen, and no exception is
    raised. *)
Theorem build_from_env_spec h root_dir env :
  (Forall (λ k, is_Some (get k env)) BuildCommand.required →
   BuildCommand.build_from_env h root_dir env
   = BuildCommand.BuildRun h (docker_build_command h root_dir env))
  ∧ (∀ pre k post,
       BuildCommand.required = (pre ++ k :: post)%list →
       Forall (λ k, is_Some (get k env)) pre → get k env = None →
       BuildCommand.build_from_env h root_dir env
       = BuildCommand.BuildMissing k)
  ∧ ((∃ k, k ∈ BuildCommand.required
           ∧ BuildCommand.build_from_env h root_dir env
             = BuildCommand.BuildMissing k)
     ∨ (∃ cmd, BuildCommand.build_from_env h root_dir env
               = BuildCommand.BuildRun h cmd
               ∧ List.last cmd "" = root_dir)).
Proof.
  pose proof (build_from_env_bound h root_dir env) as Hrun.
  split_and!; [exact Hrun | |].
  - intros pre k post E Hpre Hk. unfold BuildCommand.build_from_env.
    by rewrite E, (find_unbound_first env pre k post Hpre Hk).
  - destruct (decide (Forall (λ k, is_Some (get k env)) BuildCommand.required))
      as [Hall | Hsome].
    + right. eexists. split; [by apply Hrun|].
      unfold docker_build_command. rewrite !(assoc_L app).
      apply last_last.
    + left. apply not_Forall_Exists in Hsome; [|apply _].
      unfold BuildCommand.build_from_env.
      destruct (List.find _ BuildCommand.required) as [k|] eqn:Hfind.
      * exists k. split; [|done]. apply find_some in Hfind as [Hin _].
        by apply list_elem_of_In.
      * exfalso. apply Exists_exists in Hsome as (k & Hin & Hk).
        apply list_elem_of_In in Hin.
        apply (find_none _ _ Hfind k) in Hin.
        apply bool_decide_eq_false_1 in Hin.
        cbn in Hk. destruct (get k env); [apply Hk; by eexists | done].
Qed.

Lemma build_from_env_spec_witness :
  BuildCommand.build_from_env host0 "/home/u/rc" env_develop
  = BuildCommand.BuildRun host0
      ["docker"; "build"; "--pull"; "--rm";
       "--build-arg"; "BASE_IMAGE=osrf/ros:jazzy-desktop-full";
       "--build-arg"; "CONTAINER_USR=dev"; "--build-arg"; "CONTAINER_PSW=dev";
       "--build-arg"; "CONTAINER_UID=1000";
       "--build-arg"; "CONTAINER_GID=1000";
       "-f"; "/home/u/rc/docker/Dockerfile.ros2";
       "--target"; "develop-stage"; "-t"; "Vince-94/robot_ws-jazzy:develop";
       "--platform=linux/amd64"; "/home/u/rc"]
  ∧ BuildCommand.build_from_env host0 "/home/u/rc"
      [("DOCKERFILE", "Dockerfile.ros2")]
    = BuildCommand.BuildMissing "DOCKER_IMAGE".
Proof.
  destruct (build_from_env_spec host0 "/home/u/rc" env_develop)
    as (Hrun & _ & _).
  destruct (build_from_env_spec host0 "/home/u/rc"
              [("DOCKERFILE", "Dockerfile.ros2")]) as (_ & Hmiss & _).
  split.
  - rewrite Hrun; [reflexivity|].
    apply (bool_decide_unpack _). vm_compute. exact I.
  - apply (Hmiss ["DOCKERFILE"] "DOCKER_IMAGE"
             ["DOCKER_IMAGE_TAG"; "BUILD_STAGE"; "BASE_IMAGE";
              "CONTAINER_USR"; "CONTAINER_PSW"; "CONTAINER_UID";
              "CONTAINER_GID"; "TARGET_ARCH"; "SOURCE_ARCH"]).
    + reflexivity.
    + apply (bool_decide_unpack _). vm_compute. exact I.
    + vm_compute. reflexivity.
Defined.

(** ** From the resolution to the command, through the persisted file *)

Lemma keys_lift env : keys (lift env) = keys env.
Proof.
  unfold keys, lift. rewrite <- list_fmap_compose. done.
Qed.

Lemma get_keys_bound {V} (env : dict V) k : k ∈ keys env → is_Some (get k env).
Proof.
  intros Hk. destruct (get k env) eqn:E; [by eexists|].
  by apply get_None in E.
Qed.

Lemma parse_written h env filename :
  NoDup (keys env) →
  Forall (λ kv, key_ok kv.1 = true ∧ value_ok kv.2 = true) env →
  Build.parse_env_file (write_file h filename (env_text env)) filename
  = Ok env.
Proof.
  intros Hnd Hok.
  unfold Build.parse_env_file, Build.parse_env_text. cbn [files write_file].
  rewrite lookup_insert_eq.
  rewrite universal_newlines_no_cr by (by apply no_cr_env_text).
  rewrite splitlines_env_text, parse_lines by done.
  f_equal. rewrite union_disjoint; [done | done |]. set_solver.
Qed.

(** The entries of a resolved environment of strings are ones the reader
    takes as they are, as soon as the values are. *)
Lemma resolved_entries_ok (env : dict string) :
  keys env = resolved_keys →
  Forall (λ kv, value_ok kv.2 = true) env →
  NoDup (keys env)
  ∧ Forall (λ kv, key_ok kv.1 = true ∧ value_ok kv.2 = true) env.
Proof.
  intros Hk Hv. split.
  - rewrite Hk. apply (bool_decide_unpack _). vm_compute. exact I.
  - assert (Forall (λ k, key_ok k = true) (keys env)) as Hkeys.
    { rewrite Hk. apply (bool_decide_unpack _). vm_compute. exact I. }
    clear Hk. unfold keys in Hkeys. rewrite Forall_fmap in Hkeys.
    rewrite Forall_forall in *. intros kv Hin. split; [by apply Hkeys | by apply Hv].
Qed.

Lemma run_generate_config_written h root_dir config t tr env :
  t ≠ "" →
  yaml_documents h !! joinpath h (joinpath h root_dir "config") "env.yaml"
  = Some config →
  generate_config h config t = (tr, Ok (lift env)) →
  Build.run_generate_config h root_dir (Some t)
  = {| store := write_file h
                  (joinpath h (joinpath h root_dir "config") ".env")
                  (env_text env);
       printed := []; raised := None |}.
Proof.
  intros Ht Hy E. unfold Build.run_generate_config, load_yaml_config.
  rewrite Hy. cbn -[generate_config write_env_config].
  rewrite bool_decide_false by done. rewrite E.
  by rewrite write_env_config_lift.
Qed.

(** X9. When the resolution returns an environment of strings whose
    values have no line break and no blank at either end, [build] writes
    it to config/.env under the root directory, reads the same mapping
    back from that file, and runs the docker build command assembled from
    it: no exit, no exception. *)
Theorem build_end_to_end h root_dir config t tr env :
  t ≠ "" →
  yaml_documents h !! joinpath h (joinpath h root_dir "config") "env.yaml"
  = Some config →
  joinpath h root_dir "config/.env"
  = joinpath h (joinpath h root_dir "config") ".env" →
  generate_config h config t = (tr, Ok (lift env)) →
  Forall (λ kv, value_ok kv.2 = true) env →
  let h' := write_file h (joinpath h root_dir "config/.env") (env_text env) in
  Build.parse_env_file h' (joinpath h root_dir "config/.env") = Ok env
  ∧ BuildCommand.build h root_dir (Some t)
    = BuildCommand.BuildRun h' (docker_build_command h' root_dir env).
Proof.
  intros Ht Hy Hpath Hgen Hv h'.
  pose proof (generate_config_keys _ _ _ _ _ Hgen) as Hk.
  rewrite keys_lift in Hk.
  destruct (resolved_entries_ok env Hk Hv) as [Hnd Hok].
  assert (Build.parse_env_file h' (joinpath h root_dir "config/.env") = Ok env)
    as Hparse by (by apply parse_written).
  split; [exact Hparse|].
  unfold BuildCommand.build.
  rewrite (run_generate_config_written _ _ _ _ _ _ Ht Hy Hgen).
  cbn [raised store]. cbv zeta. rewrite <- Hpath.
  change (joinpath (write_file h (joinpath h root_dir "config/.env")
                      (env_text env)) root_dir BuildCommand.TARGET_CONFIG_PATH)
    with (joinpath h root_dir "config/.env").
  change BuildCommand.TARGET_CONFIG_PATH with "config/.env".
  fold h'. rewrite Hparse. apply build_from_env_bound.
  rewrite Forall_forall. intros k Hin. apply get_keys_bound. rewrite Hk.
  revert k Hin. apply Forall_forall.
  apply (bool_decide_unpack _). vm_compute. exact I.
Qed.

Lemma build_end_to_end_witness :
  BuildCommand.build host0 "/home/u/rc" (Some "develop")
  = BuildCommand.BuildRun
      (write_file host0 "/home/u/rc/config/.env" (env_text env_develop))
      ["docker"; "build"; "--pull"; "--rm";
       "--build-arg"; "BASE_IMAGE=osrf/ros:jazzy-desktop-full";
       "--build-arg"; "CONTAINER_USR=dev"; "--build-arg"; "CONTAINER_PSW=dev";
       "--build-arg"; "CONTAINER_UID=1000";
       "--build-arg"; "CONTAINER_GID=1000";
       "-f"; "/home/u/rc/docker/Dockerfile.ros2";
       "--target"; "develop-stage"; "-t"; "Vince-94/robot_ws-jazzy:develop";
       "--platform=linux/amd64"; "/home/u/rc"].
Proof.
  destruct (build_end_to_end host0 "/home/u/rc" config0 "develop"
              [Probe_is_dir "/home/u/robot_ws"; Probe_is_dir "/data";
               Probe_is_dir "/opt/my maps";
               Probe_is_file "/home/u/rc/docker/Dockerfile.ros2"]
              env_develop) as [_ Hb].
  - discriminate.
  - reflexivity.
  - reflexivity.
  - vm_compute. reflexivity.
  - repeat constructor.
  - rewrite Hb. reflexivity.
Defined.

(** ** Normalizing twice *)

Lemma lower_char_facts c :
  is_space (lower_char c) = is_space c
  ∧ lower_char (lower_char c) = lower_char c.
Proof. destruct c as [[] [] [] [] [] [] [] []]; by vm_compute. Qed.

Lemma lower_idemp s : lower (lower s) = lower s.
Proof.
  induction s as [|c s IH]; [done|]. cbn.
  by rewrite (proj2 (lower_char_facts c)), IH.
Qed.

Lemma all_space_lower s : all_space (lower s) = all_space s.
Proof.
  induction s as [|c s IH]; [done|]. cbn.
  by rewrite (proj1 (lower_char_facts c)), IH.
Qed.

Lemma lstrip_lower s : lstrip (lower s) = lower (lstrip s).
Proof.
  induction s as [|c s IH]; [done|]. cbn.
  rewrite (proj1 (lower_char_facts c)). by destruct (is_space c).
Qed.

Lemma rstrip_lower s : rstrip (lower s) = lower (rstrip s).
Proof.
  induction s as [|c s IH]; [done|]. cbn [lower rstrip].
  change (all_space (String (lower_char c) (lower s)))
    with (all_space (lower (String c s))).
  rewrite all_space_lower. destruct (all_space (String c s)); [done|].
  cbn. by rewrite IH.
Qed.

Lemma strip_lower s : strip (lower s) = lower (strip s).
Proof. unfold strip. by rewrite lstrip_lower, rstrip_lower. Qed.

Lemma all_space_rstrip s : all_space (rstrip s) = all_space s.
Proof.
  induction s as [|c s IH]; [done|]. cbn [rstrip].
  destruct (all_space (String c s)) eqn:E; [done|].
  cbn in *. by rewrite IH.
Qed.

Lemma rstrip_idemp s : rstrip (rstrip s) = rstrip s.
Proof.
  induction s as [|c s IH]; [done|]. cbn [rstrip].
  destruct (all_space (String c s)) eqn:E; [done|]. cbn [rstrip].
  change (all_space (String c (rstrip s)))
    with (is_space c && all_space (rstrip s)).
  rewrite all_space_rstrip.
  change (is_space c && all_space s) with (all_space (String c s)).
  by rewrite E, IH.
Qed.

Lemma lstrip_head s :
  lstrip s = "" ∨ ∃ c r, lstrip s = String c r ∧ is_space c = false.
Proof.
  induction s as [|c s IH]; [by left|]. cbn.
  destruct (is_space c) eqn:E; [done|]. right. by exists c, s.
Qed.

Lemma strip_idemp s : strip (strip s) = strip s.
Proof.
  unfold strip. destruct (lstrip_head s) as [-> | (c & r & -> & Hc)]; [done|].
  cbn [rstrip].
  change (all_space (String c r)) with (is_space c && all_space r).
  rewrite Hc. cbn [andb lstrip]. rewrite Hc.
  change (rstrip (String c (rstrip r)) = String c (rstrip r)).
  cbn [rstrip].
  change (all_space (String c (rstrip r)))
    with (is_space c && all_space (rstrip r)).
  rewrite Hc. cbn [andb]. by rewrite rstrip_idemp.
Qed.

Lemma lower_strip_idemp s : lower (strip (lower (strip s))) = lower (strip s).
Proof. by rewrite strip_lower, strip_idemp, lower_idemp. Qed.

(** X10. Normalizing an architecture token twice is normalizing it once,
    in build.py and in run.py; so the platform option chosen for a token
    is the one chosen for its normal form. *)
Theorem normalize_arch_idempotent a source_arch :
  Build.normalize_arch (Build.normalize_arch a) = Build.normalize_arch a
  ∧ Run.normalize_arch (Run.normalize_arch a) = Run.normalize_arch a
  ∧ Build.choose_platform_option (Build.normalize_arch a) source_arch
    = Build.choose_platform_option a source_arch
  ∧ Run.choose_platform_option (Run.normalize_arch a) source_arch
    = Run.choose_platform_option a source_arch.
Proof.
  assert (Build.normalize_arch (Build.normalize_arch a)
          = Build.normalize_arch a) as HB.
  { unfold Build.normalize_arch at 2 3. cbn zeta.
    case_bool_decide as H1; [reflexivity|].
    destruct (startswith (lower (strip a)) "armv7"
              || bool_decide (lower (strip a) = "armv7l")) eqn:H2; [reflexivity|].
    unfold Build.normalize_arch. cbn zeta. rewrite lower_strip_idemp.
    by rewrite (bool_decide_false _ H1), H2. }
  assert (Run.normalize_arch (Run.normalize_arch a) = Run.normalize_arch a)
    as HR.
  { unfold Run.normalize_arch at 2 3. cbn zeta.
    case_bool_decide as H0; [reflexivity|].
    case_bool_decide as H1; [reflexivity|].
    destruct (bool_decide (lower (strip a) ∈ ["arm"; "armv7l"])
              || startswith (lower (strip a)) "armv7") eqn:H2; [reflexivity|].
    unfold Run.normalize_arch. cbn zeta. rewrite lower_strip_idemp.
    rewrite (bool_decide_false _ H1), H2.
    destruct (decide (lower (strip a) = "")) as [E|E].
    - by rewrite E.
    - by rewrite (bool_decide_false _ E). }
  split_and!; [exact HB | exact HR | |].
  - unfold Build.choose_platform_option. cbn zeta. by rewrite HB.
  - unfold Run.choose_platform_option. cbn zeta. by rewrite HR.
Qed.

(** ** run.py: from the environment to the docker command *)

Lemma get_set_ne {V} (d : dict V) k k' v :
  k ≠ k' → get k (set k' v d) = get k d.
Proof.
  intros N. induction d as [|[k0 v0] d IH]; cbn.
  - by rewrite decide_False.
  - destruct (decide (k' = k0)) as [->|]; cbn.
    + by rewrite !decide_False.
    + by rewrite IH.
Qed.

Lemma get_set_eq {V} (d : dict V) k v : get k (set k v d) = Some v.
Proof.
  induction d as [|[k0 v0] d IH]; cbn.
  - by rewrite decide_True.
  - destruct (decide (k = k0)) as [->|N]; cbn.
    + by rewrite decide_True.
    + by rewrite decide_False.
Qed.

Lemma get_setdefault_ne (d : dict string) k k' v :
  k ≠ k' → get k (RunCommand.setdefault k' v d) = get k d.
Proof.
  intros N. unfold RunCommand.setdefault.
  destruct (get k' d); [done|]. by apply get_set_ne.
Qed.

Lemma get_setdefault_eq (d : dict string) k v :
  get k (RunCommand.setdefault k v d) = Some (default v (get k d)).
Proof.
  unfold RunCommand.setdefault. destruct (get k d) eqn:E; [done|].
  apply get_set_eq.
Qed.

Lemma filter_unbound_ext (env env' : dict string) (l : list string) :
  (∀ k, k ∈ l → get k env' = get k env) →
  filter (λ k, get k env' = None) l = filter (λ k, get k env = None) l.
Proof.
  induction l as [|k l IH]; intros Hl; [done|].
  rewrite !filter_cons, (Hl k) by left.
  rewrite IH; [done|]. intros k' Hk'. apply Hl. by right.
Qed.

Lemma filter_unbound_drop (env : dict string) (bound l : list string) :
  Forall (λ k, is_Some (get k env)) bound →
  filter (λ k, get k env = None) l
  = filter (λ k, get k env = None) (filter (λ k, k ∉ bound) l).
Proof.
  intros Hb. induction l as [|k l IH]; [done|].
  rewrite (filter_cons (λ k, k ∉ bound)).
  destruct (decide (k ∉ bound)) as [N|Y].
  - rewrite !filter_cons, IH. done.
  - apply dec_stable in Y. rewrite Forall_forall in Hb.
    destruct (Hb k Y) as [v Hv].
    rewrite filter_cons, decide_False by (by rewrite Hv). done.
Qed.

Lemma missing_late (env : dict string) dsp hn :
  Forall (λ k, is_Some (get k env)) eager_keys →
  filter (λ k, get k (RunCommand.setdefault "HOSTNAME" hn
                        (RunCommand.setdefault "DISPLAY" dsp env)) = None)
    RunCommand.required
  = filter (λ k, get k env = None) late_keys.
Proof.
  intros Hreq.
  rewrite (filter_unbound_ext env).
  - by rewrite (filter_unbound_drop env eager_keys _ Hreq).
  - intros k Hk. rewrite !get_setdefault_ne; [done | |].
    + intros ->. revert Hk. apply (bool_decide_unpack _). by vm_compute.
    + intros ->. revert Hk. apply (bool_decide_unpack _). by vm_compute.
Qed.

Ltac split_bound :=
  repeat match goal with
         | H : Forall _ (_ :: _) |- _ =>
             apply Forall_cons in H as [[? ?] H]
         end.

Ltac use_bound env :=
  repeat match goal with
         | H : get ?k env = Some _ |- _ => rewrite !H; clear H
         end.

Lemma run_from_env_first_unbound environ d env pre k post :
  eager_keys = (pre ++ k :: post)%list →
  Forall (λ k, is_Some (get k env)) pre →
  get k env = None →
  RunCommand.run_from_env environ d env = RunCommand.Raises (KeyError k).
Proof.
  intros E Hpre Hk. unfold eager_keys in E.
  do 8 (destruct pre as [|? pre]; cbn in E;
        [injection E as <- _; split_bound;
         unfold RunCommand.run_from_env, RunCommand.item;
         use_bound env; by rewrite Hk
        |injection E as <- E]).
  by destruct pre.
Qed.

Lemma run_from_env_missing environ d env :
  Forall (λ k, is_Some (get k env)) eager_keys →
  filter (λ k, get k env = None) late_keys ≠ [] →
  RunCommand.run_from_env environ d env
  = RunCommand.ExitMissing (filter (λ k, get k env = None) late_keys).
Proof.
  intros Hreq Hmiss.
  pose proof (missing_late env (default "" (environ !! "DISPLAY"))
                (default "localhost" (environ !! "HOSTNAME")) Hreq) as Hm.
  unfold eager_keys in Hreq. split_bound.
  unfold RunCommand.run_from_env, RunCommand.item.
  use_bound env. cbv zeta. rewrite Hm.
  by rewrite bool_decide_false.
Qed.

(** X11. [run] reads eight variables by subscript before it looks for
    missing ones: when one of them is unbound it raises [KeyError] for
    the first such, exit status 6 is not reached and no list of missing
    variables is printed.  The exit for missing variables happens only
    when these eight are bound, and then lists, in order, the unbound
    ones among the five other required variables; it never names one of
    the eight. *)
Theorem run_missing_variables environ d env :
  (∀ pre k post,
     eager_keys = (pre ++ k :: post)%list →
     Forall (λ k, is_Some (get k env)) pre → get k env = None →
     RunCommand.run_from_env environ d env = RunCommand.Raises (KeyError k))
  ∧ (Forall (λ k, is_Some (get k env)) eager_keys →
     filter (λ k, get k env = None) late_keys ≠ [] →
     RunCommand.run_from_env environ d env
     = RunCommand.ExitMissing (filter (λ k, get k env = None) late_keys))
  ∧ (∀ missing,
       RunCommand.run_from_env environ d env = RunCommand.ExitMissing missing →
       Forall (λ k, is_Some (get k env)) eager_keys
       ∧ missing ≠ []
       ∧ missing = filter (λ k, get k env = None) late_keys).
Proof.
  split_and!.
  - apply run_from_env_first_unbound.
  - apply run_from_env_missing.
  - intros missing.
    pose proof (missing_late env (default "" (environ !! "DISPLAY"))
                  (default "localhost" (environ !! "HOSTNAME"))) as Hm.
    unfold RunCommand.run_from_env, RunCommand.item.
    destruct (get "DOCKER_IMAGE" env) eqn:H1; [|done].
    destruct (get "DOCKER_IMAGE_TAG" env) eqn:H2; [|done].
    destruct (get "CONTAINER_USR" env) eqn:H3; [|done].
    destruct (get "CONTAINER_UID" env) eqn:H4; [|done].
    destruct (get "CONTAINER_GID" env) eqn:H5; [|done].
    destruct (get "CONTAINER_RUN_CMD" env) eqn:H6; [|done].
    destruct (get "CONTAINER_WS" env) eqn:H7; [|done].
    destruct (get "DOCKER_CONTAINER" env) eqn:H8; [|done].
    assert (Forall (λ k, is_Some (get k env)) eager_keys) as Hreq
      by (repeat constructor; by eexists).
    cbv zeta. rewrite (Hm Hreq).
    destruct (decide (filter (λ k, get k env = None) late_keys = []))
      as [E|E].
    + rewrite E. cbn [bool_decide decide_rel negb].
      rewrite bool_decide_true by done. cbn [negb].
      repeat (case_match; try done).
    + rewrite bool_decide_false by done. cbn [negb].
      intros [= <-]. done.
Qed.

Lemma run_missing_variables_witness :
  RunCommand.run_from_env ∅
    {| RunCommand.docker_image_exists := λ _ _, true;
       RunCommand.container_running := λ _, false |}
    [("DOCKER_IMAGE", "img"); ("VOLUMES", "()")]
  = RunCommand.Raises (KeyError "DOCKER_IMAGE_TAG")
  ∧ RunCommand.run_from_env ∅
      {| RunCommand.docker_image_exists := λ _ _, true;
         RunCommand.container_running := λ _, false |}
      [("DOCKER_IMAGE", "img"); ("DOCKER_IMAGE_TAG", "develop");
       ("CONTAINER_USR", "dev"); ("CONTAINER_UID", "1000");
       ("CONTAINER_GID", "1000"); ("CONTAINER_RUN_CMD", "bash");
       ("CONTAINER_WS", "/home/dev/ws"); ("DOCKER_CONTAINER", "c");
       ("VOLUMES", "()"); ("TARGET_ARCH", "arm")]
    = RunCommand.ExitMissing ["LOCAL_WS_PATH"; "CONTAINER_HOME"; "SOURCE_ARCH"].
Proof.
  split.
  - apply (proj1 (run_missing_variables _ _ _) ["DOCKER_IMAGE"]
             "DOCKER_IMAGE_TAG"
             ["CONTAINER_USR"; "CONTAINER_UID"; "CONTAINER_GID";
              "CONTAINER_RUN_CMD"; "CONTAINER_WS"; "DOCKER_CONTAINER"]).
    + reflexivity.
    + repeat constructor; by eexists.
    + reflexivity.
  - etrans; [apply (proj1 (proj2 (run_missing_variables _ _ _)))|].
    + repeat constructor; by eexists.
    + by vm_compute.
    + by vm_compute.
Defined.

Lemma filter_unbound_nil (env : dict string) (l : list string) :
  Forall (λ k, is_Some (get k env)) l →
  filter (λ k, get k env = None) l = [].
Proof.
  induction 1 as [|k l [v Hv] _ IH]; [done|].
  by rewrite filter_cons, decide_False by (by rewrite Hv).
Qed.

Lemma run_from_env_bound environ d env :
  Forall (λ k, is_Some (get k env)) RunCommand.required →
  let var k := default "" (get k env) in
  RunCommand.run_from_env environ d env
  = if negb (RunCommand.docker_image_exists d (var "DOCKER_IMAGE")
               (var "DOCKER_IMAGE_TAG"))
    then RunCommand.ExitNoImage (var "DOCKER_IMAGE") (var "DOCKER_IMAGE_TAG")
    else if RunCommand.container_running d (var "DOCKER_CONTAINER")
    then RunCommand.Join
           ["docker"; "exec"; "-it"; "-w"; var "CONTAINER_WS";
            var "DOCKER_CONTAINER";
            "/bin/bash"; "-c"; "/entrypoint.sh ; /bin/bash"]
    else if negb (bool_decide (var "VOLUMES" = "()")) then
      match RunCommand.parse_bash_array (var "VOLUMES") with
      | Shlex.Tokens vols =>
          RunCommand.Create (docker_run_command environ env vols)
      | Shlex.ValueError msg => RunCommand.RaisesValueError msg
      end
    else RunCommand.Create (docker_run_command environ env []).
Proof.
  intros Hreq var. subst var.
  pose proof (filter_unbound_nil env _ Hreq) as Hnil.
  rewrite <- (filter_unbound_ext env
                (RunCommand.setdefault "HOSTNAME"
                   (default "localhost" (environ !! "HOSTNAME"))
                   (RunCommand.setdefault "DISPLAY"
                      (default "" (environ !! "DISPLAY")) env))) in Hnil.
  2:{ intros k Hk. rewrite !get_setdefault_ne; [done | |].
      - intros ->. revert Hk. apply (bool_decide_unpack _). by vm_compute.
      - intros ->. revert Hk. apply (bool_decide_unpack _). by vm_compute. }
  unfold RunCommand.required in Hreq. split_bound.
  unfold RunCommand.run_from_env, RunCommand.item, docker_run_command.
  cbv zeta. rewrite Hnil.
  rewrite (get_setdefault_eq _ "HOSTNAME").
  rewrite (get_setdefault_ne _ "HOSTNAME" "DISPLAY") by done.
  rewrite (get_setdefault_ne _ "DISPLAY" "HOSTNAME") by done.
  rewrite (get_setdefault_eq _ "DISPLAY").
  rewrite !(get_setdefault_ne _ _ "HOSTNAME") by done.
  rewrite !(get_setdefault_ne _ _ "DISPLAY") by done.
  use_bound env. reflexivity.
Qed.

(** X12. From an environment that binds the required variables, whose
    [VOLUMES] is the array text of a list of volumes, and whose image
    exists, [run] joins the container when it is running and creates it
    otherwise.  The command that creates it mounts the workspace and then
    each listed volume, in order, under [CONTAINER_HOME] by the last
    component of its path; [DISPLAY] and [HOSTNAME] come from the
    environment file when bound there, else from the process environment.
    The place of the platform option holds an empty list, not a string,
    exactly when no option is chosen. *)
Theorem run_command environ d env vols :
  let var k := default "" (get k env) in
  Forall (λ k, is_Some (get k env)) RunCommand.required →
  get "VOLUMES" env = Some (bash_array_assignment vols) →
  RunCommand.docker_image_exists d (var "DOCKER_IMAGE")
    (var "DOCKER_IMAGE_TAG") = true →
  RunCommand.run_from_env environ d env
  = (if RunCommand.container_running d (var "DOCKER_CONTAINER")
     then RunCommand.Join
            ["docker"; "exec"; "-it"; "-w"; var "CONTAINER_WS";
             var "DOCKER_CONTAINER";
             "/bin/bash"; "-c"; "/entrypoint.sh ; /bin/bash"]
     else RunCommand.Create (docker_run_command environ env vols))
  ∧ (RunCommand.EmptyList ∈ docker_run_command environ env vols
     ↔ Run.choose_platform_option (var "TARGET_ARCH") (var "SOURCE_ARCH")
       = None).
Proof.
  intros var Hreq Hvol Himg. subst var. cbv beta in *. split.
  - rewrite (run_from_env_bound environ d env Hreq). cbv beta zeta.
    rewrite Himg. cbn [negb].
    destruct (RunCommand.container_running d _); [done|].
    rewrite Hvol. cbn [default].
    pose proof (parse_bash_array_quoted vols) as Hparse.
    case_bool_decide as E; cbn [negb].
    + change (bash_array_assignment vols = "()") in E.
      rewrite E in Hparse. vm_compute in Hparse. by injection Hparse as <-.
    + change (id (bash_array_assignment vols))
        with (bash_array_assignment vols).
      by rewrite Hparse.
  - unfold docker_run_command. cbv beta zeta.
    rewrite !elem_of_app, list_elem_of_singleton, !list_elem_of_fmap.
    split.
    + intros [(? & ? & _) | [(? & ? & _) | [H | (? & ? & _)]]]; try done.
      by destruct (Run.choose_platform_option _ _).
    + intros ->. by right; right; left.
Qed.

Lemma run_command_witness :
  RunCommand.run_from_env ∅
    {| RunCommand.docker_image_exists := λ _ _, true;
       RunCommand.container_running := λ _, false |}
    env_develop
  = RunCommand.Create
      (docker_run_command ∅ env_develop ["/data"; "/opt/my maps"])
  ∧ RunCommand.Arg "-v/opt/my maps:/home/dev/my maps:rw"
    ∈ docker_run_command ∅ env_develop ["/data"; "/opt/my maps"].
Proof.
  split.
  - apply (proj1 (run_command ∅
                    {| RunCommand.docker_image_exists := λ _ _, true;
                       RunCommand.container_running := λ _, false |}
                    env_develop ["/data"; "/opt/my maps"]
                    ltac:(repeat constructor; by eexists)
                    eq_refl eq_refl)).
  - unfold docker_run_command. rewrite !elem_of_app. right; left.
    apply list_elem_of_fmap_2. vm_compute. repeat constructor.
Defined.

(** ** Where an extra volume is mounted *)

Lemma parts_go_plain cur b :
  has_char "/" b = false →
  PyPath.parts_go cur b
  = if bool_decide (cur ++ b = "") || bool_decide (cur ++ b = ".")
    then [] else [cur ++ b].
Proof.
  revert cur. induction b as [|c b IH]; intros cur Hb.
  - cbn. by rewrite app_empty_r.
  - cbn [has_char] in Hb. destruct (Ascii.eqb "/" c) eqn:E; [done|].
    cbn [PyPath.parts_go].
    assert (Ascii.eqb c "/" = false) as ->.
    { apply Ascii.eqb_neq. apply Ascii.eqb_neq in E. congruence. }
    rewrite (IH _ Hb), !string_app_assoc.
    by rewrite !app_cons, !app_empty_l.
Qed.

Lemma parts_go_last cur dir b :
  has_char "/" b = false → b ≠ "" → b ≠ "." →
  ∃ pre, PyPath.parts_go cur (dir ++ String "/" b) = (pre ++ [b])%list.
Proof.
  intros Hb H1 H2. revert cur. induction dir as [|c dir IH]; intros cur.
  - rewrite app_empty_l. cbn [PyPath.parts_go]. cbn [Ascii.eqb Bool.eqb].
    rewrite (parts_go_plain "" b Hb), app_empty_l.
    rewrite (bool_decide_false (b = "")), (bool_decide_false (b = ".")) by done. cbn [orb].
    destruct (bool_decide (cur = "") || bool_decide (cur = "."));
      [by exists [] | by exists [cur]].
  - rewrite app_cons. cbn [PyPath.parts_go].
    destruct (Ascii.eqb c "/").
    + destruct (IH "") as [pre ->].
      destruct (bool_decide (cur = "") || bool_decide (cur = "."));
        [by exists pre | by exists (cur :: pre)].
    + apply IH.
Qed.

(** X13. The name of a path is its last component: for a path that ends
    in a slash followed by a component (not empty, not a single dot,
    without a slash), [Path(p).name] is that component, whatever comes
    before.  So [run] mounts an extra volume under [CONTAINER_HOME] by
    its last component alone: volumes in different directories that end
    in the same component get the same place in the container. *)
Theorem extra_volume_by_last_component container_home dir base :
  has_char "/" base = false → base ≠ "" → base ≠ "." →
  PyPath.name (dir ++ "/" ++ base) = base
  ∧ RunCommand.extra_volume container_home (dir ++ "/" ++ base)
    = "-v" ++ (dir ++ "/" ++ base) ++ ":" ++ container_home ++ "/" ++ base
      ++ ":rw".
Proof.
  intros Hb H1 H2.
  assert (PyPath.name (dir ++ "/" ++ base) = base) as Hname.
  { unfold PyPath.name.
    destruct (parts_go_last "" dir base Hb H1 H2) as [pre Hpre].
    change ("/" ++ base) with (String "/" base).
    rewrite Hpre. apply last_last. }
  split; [exact Hname|].
  unfold RunCommand.extra_volume. by rewrite Hname.
Qed.

Lemma extra_volume_by_last_component_witness :
  RunCommand.extra_volume "/home/dev" "/data/maps"
  = "-v/data/maps:/home/dev/maps:rw"
  ∧ RunCommand.extra_volume "/home/dev" "/srv/old/maps"
    = "-v/srv/old/maps:/home/dev/maps:rw".
Proof.
  split.
  - apply (proj2 (extra_volume_by_last_component "/home/dev" "/data" "maps"
                    eq_refl ltac:(done) ltac:(done))).
  - apply (proj2 (extra_volume_by_last_component "/home/dev" "/srv/old" "maps"
                    eq_refl ltac:(done) ltac:(done))).
Defined.

(** ** What the reader of the persisted environment returns *)

Lemma all_chars_lstrip p s :
  all_chars p s = true → all_chars p (lstrip s) = true.
Proof.
  induction s as [|c s IH]; [done|]. cbn [lstrip].
  destruct (is_space c); [|done]. cbn [all_chars].
  intros [_ ?]%andb_true_iff. auto.
Qed.

Lemma all_chars_rstrip p s :
  all_chars p s = true → all_chars p (rstrip s) = true.
Proof.
  induction s as [|c s IH]; [done|]. cbn [rstrip].
  destruct (all_space (String c s)); [done|]. cbn [all_chars].
  intros [? ?]%andb_true_iff. apply andb_true_iff. auto.
Qed.

Lemma all_chars_strip p s :
  all_chars p s = true → all_chars p (strip s) = true.
Proof. intros H. by apply all_chars_rstrip, all_chars_lstrip. Qed.

Lemma all_chars_split_once p c s :
  all_chars p s = true →
  all_chars p (split_once c s).1 = true
  ∧ all_chars p (split_once c s).2 = true.
Proof.
  induction s as [|d s IH]; [done|]. cbn [split_once all_chars].
  intros [Hd Hs]%andb_true_iff. destruct (Ascii.eqb c d); [done|].
  destruct (IH Hs) as [Hk Hv]. destruct (split_once c s) as [k v].
  cbn in *. by rewrite Hd, Hk.
Qed.

Lemma has_char_all_chars c s :
  has_char c s = negb (all_chars (λ d, negb (Ascii.eqb c d)) s).
Proof.
  induction s as [|d s IH]; [done|]. cbn [has_char all_chars].
  destruct (Ascii.eqb c d); [done|]. by rewrite IH.
Qed.

Lemma split_once_key_plain c s : has_char c (split_once c s).1 = false.
Proof.
  induction s as [|d s IH]; [done|]. cbn [split_once].
  destruct (Ascii.eqb c d) eqn:E; [done|].
  destruct (split_once c s) as [k v]. cbn in *. by rewrite E.
Qed.

Lemma has_char_strip c s : has_char c s = false → has_char c (strip s) = false.
Proof.
  rewrite !has_char_all_chars, !negb_false_iff. apply all_chars_strip.
Qed.

Lemma strip_head c r s : strip s = String c r → is_space c = false.
Proof.
  unfold strip. destruct (lstrip_head s) as [-> | (c' & r' & -> & Hc)]; [done|].
  cbn [rstrip]. destruct (all_space (String c' r')); [done|].
  by intros [= <- _].
Qed.

Lemma strip_cons c r :
  is_space c = false → strip (String c r) = String c (rstrip r).
Proof.
  intros Hc. unfold strip. cbn [lstrip]. rewrite Hc. cbn [rstrip].
  change (all_space (String c r)) with (is_space c && all_space r).
  by rewrite Hc.
Qed.

Lemma startswith_cons c r p :
  startswith (String c r) (String p "") = bool_decide (p = c).
Proof.
  unfold startswith. cbn [String.prefix].
  destruct (ascii_dec p c) as [->|N].
  - rewrite bool_decide_true by done. by destruct r.
  - by rewrite bool_decide_false.
Qed.

(** The key and the value that a line gives are ones the reader takes as
    they are. *)
Lemma parsed_item_ok line :
  no_break line = true →
  strip line ≠ "" → startswith (strip line) "#" = false →
  key_ok (strip (split_once "=" (strip line)).1) = true
  ∧ value_ok (strip (split_once "=" (strip line)).2) = true.
Proof.
  intros Hnb Hne Hhash.
  pose proof (all_chars_strip _ _ Hnb) as Hnb'. fold (no_break (strip line)) in Hnb'.
  destruct (all_chars_split_once _ "=" _ Hnb') as [Hk Hv].
  pose proof (split_once_key_plain "=" (strip line)) as Hkeq.
  split.
  - unfold key_ok. rewrite !andb_true_iff. split_and!.
    + by apply all_chars_strip.
    + by rewrite has_char_strip.
    + destruct (strip line) as [|c r] eqn:E; [done|].
      pose proof (strip_head _ _ _ E) as Hc.
      rewrite startswith_cons in Hhash.
      cbn [split_once]. destruct (Ascii.eqb "=" c); [done|].
      destruct (split_once "=" r) as [k v]. cbn [fst].
      rewrite (strip_cons _ _ Hc), startswith_cons. by rewrite Hhash.
    + apply bool_decide_eq_true. apply strip_idemp.
  - unfold value_ok. rewrite andb_true_iff. split.
    + by apply all_chars_strip.
    + apply bool_decide_eq_true. apply strip_idemp.
Qed.

Lemma set_well_formed env k v :
  key_ok k = true → value_ok v = true →
  well_formed env → well_formed (set k v env).
Proof.
  intros Hk Hv [Hnd Hok]. induction env as [|[k' v'] env IH].
  - split; cbn; [apply NoDup_singleton | by repeat constructor].
  - cbn [set]. apply Forall_cons in Hok as [Hok1 Hok].
    cbn [keys fmap list_fmap fst] in Hnd. apply NoDup_cons in Hnd as [Hnin Hnd].
    destruct (decide (k = k')) as [->|N].
    + split; [by apply NoDup_cons | by constructor].
    + destruct (IH Hnd Hok) as [Hnd' Hok']. split; [|by constructor].
      cbn [keys fmap list_fmap fst]. apply NoDup_cons. split; [|done].
      intros Hin. apply Hnin. clear -Hin N.
      induction env as [|[k0 v0] env IH]; cbn in *.
      * apply list_elem_of_singleton in Hin. done.
      * destruct (decide (k = k0)) as [->|N0]; cbn in *.
        -- apply elem_of_cons in Hin as [?|?]; [done|]. by right.
        -- apply elem_of_cons in Hin as [->|?]; [by left|]. right. by apply IH.
Qed.

Lemma parse_line_well_formed env line :
  no_break line = true → well_formed env →
  well_formed (Build.parse_line env line).
Proof.
  intros Hnb Hwf. unfold Build.parse_line. cbv zeta.
  destruct (bool_decide (strip line = "")) eqn:E1; [done|].
  destruct (startswith (strip line) "#") eqn:E2; [done|]. cbn [orb].
  destruct (negb (has_char "=" (strip line))); [done|].
  apply bool_decide_eq_false in E1.
  destruct (parsed_item_ok line Hnb E1 E2) as [Hk Hv].
  destruct (split_once "=" (strip line)) as [k v]. cbn [fst snd] in *.
  by apply set_well_formed.
Qed.

Lemma foldl_parse_line_well_formed lines env :
  Forall (λ l, no_break l = true) lines → well_formed env →
  well_formed (foldl Build.parse_line env lines).
Proof.
  intros Hl. revert env. induction Hl as [|l lines Hnb _ IH]; intros env Hwf.
  - done.
  - cbn. apply IH. by apply parse_line_well_formed.
Qed.

Lemma splitlines_go_no_break n s cur :
  (String.length s ≤ n)%nat → no_break cur = true →
  Forall (λ l, no_break l = true) (splitlines_go cur s).
Proof.
  revert s cur. induction n as [|n IH]; intros s cur Hn Hcur.
  - destruct s; [|cbn in Hn; lia]. cbn. destruct cur; by repeat constructor.
  - destruct s as [|c s]; [cbn; destruct cur; by repeat constructor|].
    cbn in Hn. cbn [splitlines_go].
    destruct (is_linebreak c) eqn:Ec.
    + constructor; [done|].
      destruct s as [|d s]; [apply IH; [cbn; lia | done]|].
      destruct (Ascii.eqb c "013" && Ascii.eqb d "010").
      * apply IH; [cbn in *; lia | done].
      * apply IH; [cbn in *; lia | done].
    + apply IH; [lia|]. unfold no_break in *.
      rewrite all_chars_app, Hcur. cbn. by rewrite Ec.
Qed.

Lemma parse_env_text_well_formed text :
  well_formed (Build.parse_env_text text).
Proof.
  unfold Build.parse_env_text. apply foldl_parse_line_well_formed.
  - by apply (splitlines_go_no_break (String.length text)).
  - split; [apply NoDup_nil_2 | constructor].
Qed.

(** X14. Whatever the text of the file, the mapping that build.py's
    reader returns has no repeated key, keys without line break, equals
    sign, leading hash or blank at either end, and values without line
    break or blank at either end.  So it is a fixed point of writing and
    reading: written by [write_env_config] and read again, it comes back
    unchanged. *)
Theorem parsed_environment_is_stable h filename text :
  let env := Build.parse_env_text text in
  NoDup (keys env)
  ∧ Forall (λ kv, key_ok kv.1 = true ∧ value_ok kv.2 = true) env
  ∧ Build.parse_env_file (write_file h filename (env_text env)) filename
    = Ok env.
Proof.
  intros env. destruct (parse_env_text_well_formed text) as [Hnd Hok].
  split_and!; [done | done |]. by apply parse_written.
Qed.

(** ** config.py and build.py read the same file *)

Lemma unquote_values_set env k v :
  unquote_values (set k v env) = set k (unquote v) (unquote_values env).
Proof.
  induction env as [|[k' v'] env IH]; [done|].
  unfold unquote_values in *. cbn [set fmap list_fmap fst snd].
  destruct (decide (k = k')); [done|].
  cbn [fmap list_fmap fst snd] in *. by rewrite IH.
Qed.

Lemma all_space_app (a b : string) :
  all_space (a ++ b) = all_space a && all_space b.
Proof.
  induction a as [|c a IH]; [done|].
  rewrite app_cons. cbn. by rewrite IH, andb_assoc.
Qed.

Lemma rstrip_all_space s : all_space s = true → rstrip s = "".
Proof. destruct s as [|c s]; [done|]. cbn [rstrip]. by intros ->. Qed.

Lemma lstrip_all_space s : all_space s = true → lstrip s = "".
Proof.
  induction s as [|c s IH]; [done|]. cbn.
  intros [-> ?]%andb_true_iff. auto.
Qed.

Lemma rstrip_app_blank (a b : string) :
  all_space b = true → rstrip (a ++ b) = rstrip a.
Proof.
  intros Hb. induction a as [|c a IH].
  - rewrite app_empty_l. by apply rstrip_all_space.
  - rewrite app_cons. cbn [rstrip].
    change (all_space (String c (a ++ b)))
      with (is_space c && all_space (a ++ b)).
    change (all_space (String c a)) with (is_space c && all_space a).
    by rewrite all_space_app, Hb, andb_true_r, IH.
Qed.

Lemma lstrip_app_blank (a b : string) :
  all_space b = true → rstrip (lstrip (a ++ b)) = rstrip (lstrip a).
Proof.
  intros Hb. induction a as [|c a IH].
  - rewrite app_empty_l. cbn. rewrite (lstrip_all_space b Hb). done.
  - rewrite app_cons. cbn [lstrip]. destruct (is_space c); [done|].
    rewrite <- app_cons. by apply rstrip_app_blank.
Qed.

Lemma strip_line_feed (line : string) : strip (line ++ LF) = strip line.
Proof. unfold strip. by apply lstrip_app_blank. Qed.

Lemma load_line_parse_line env line :
  Config.load_line (unquote_values env) line
  = unquote_values (Build.parse_line env line).
Proof.
  unfold Config.load_line, Build.parse_line. cbv zeta.
  destruct (bool_decide (strip line = "") || startswith (strip line) "#");
    [done|].
  destruct (negb (has_char "=" (strip line))); [done|].
  destruct (split_once "=" (strip line)) as [k v].
  by rewrite unquote_values_set.
Qed.

Lemma load_lines_parse_lines s cur env :
  only_line_feeds s = true →
  foldl Config.load_line (unquote_values env) (Config.file_lines_go cur s)
  = unquote_values (foldl Build.parse_line env (splitlines_go cur s)).
Proof.
  revert cur env. induction s as [|c s IH]; intros cur env Hs.
  - cbn. destruct cur; [done|]. cbn [foldl]. apply load_line_parse_line.
  - cbn [only_line_feeds all_chars] in Hs.
    apply andb_true_iff in Hs as [Hc Hs].
    cbn [Config.file_lines_go splitlines_go].
    destruct (Ascii.eqb c "010") eqn:E.
    + apply Ascii.eqb_eq in E as ->.
      change (is_linebreak "010") with true. cbn [foldl].
      change (cur ++ String "010" "") with (cur ++ LF).
      assert (Config.load_line (unquote_values env) (cur ++ LF)
              = unquote_values (Build.parse_line env cur)) as ->.
      { rewrite <- load_line_parse_line.
        unfold Config.load_line. by rewrite strip_line_feed. }
      destruct s as [|d s]; [by apply IH|].
      change (Ascii.eqb "010" "013") with false. cbn [andb].
      by apply IH.
    + rewrite orb_false_r in Hc. apply negb_true_iff in Hc. rewrite Hc.
      by apply IH.
Qed.

(** X15. On a file whose only line breaks, once read with universal
    newlines, are line feeds, config.py's [load_env_file] returns the
    mapping that build.py's [parse_env_file] returns, key for key and in
    the same order, with double quotes and then single quotes removed
    from both ends of every value. *)
Theorem config_reads_what_build_reads h env_path content :
  files h !! env_path = Some content →
  only_line_feeds (universal_newlines content) = true →
  ∃ env, Build.parse_env_file h env_path = Ok env
         ∧ Config.load_env_text content = unquote_values env.
Proof.
  intros Hf Hs. unfold Build.parse_env_file. rewrite Hf.
  eexists. split; [done|].
  unfold Config.load_env_text, Config.file_lines, Build.parse_env_text,
    splitlines.
  by apply (load_lines_parse_lines _ "" []).
Qed.

Lemma config_reads_what_build_reads_witness :
  ∃ env,
    Build.parse_env_file
      (write_file host0 "/rc/config/.env"
         ("CONTAINER_USR='dev'" ++ LF ++ "VOLUMES=('/opt/my maps')" ++ LF))
      "/rc/config/.env" = Ok env
    ∧ Config.load_env_text
        ("CONTAINER_USR='dev'" ++ LF ++ "VOLUMES=('/opt/my maps')" ++ LF)
      = unquote_values env.
Proof.
  apply config_reads_what_build_reads.
  - cbn [files write_file]. apply lookup_insert_eq.
  - by vm_compute.
Defined.
